(** * py_config.base_config: specialising configuration objects

    A shallow embedding of [src/py_config/base_config.py] and of the part of
    the pydantic (v1) construction protocol that drives it.

    The Python module defines one function and two model classes:
    - [class_from_name]: import a module and fetch a class from it;
    - [BaseContainerCfg], whose post root validator [specialize] walks the
      validated field values;
    - [BaseElementCfg], whose pre root validator [args_to_kwargs] captures
      the raw arguments and whose method [specialize_field] rebuilds the
      object as the class named by [class_path].

    Constructing a model, [cls( **data )], is pydantic's [validate_model]:
    pre root validators, then every declared field, then post root
    validators.  It is modelled in [validate_model] below with the recursive
    construction of other models left open ([rec]); [construct] closes the
    recursion with a bound on its depth. *)

From Stdlib Require Import String Ascii List Bool Arith.
Import ListNotations.
Open Scope string_scope.

Set Warnings "-register-all".

(** ** Python values *)

(** A class object is identified by the module that defines it and its
    [__name__]. *)
Record cref : Type := Cref { cr_module : string; cr_name : string }.

Definition cref_eqb (a b : cref) : bool :=
  String.eqb (cr_module a) (cr_module b) && String.eqb (cr_name a) (cr_name b).

(** Values of the document tree and of the object graph.  A [dict] keeps its
    items in insertion order, as Python does. *)
Inductive value : Type :=
| VNone
| VBool (b : bool)
| VStr (s : string)
| VList (l : list value)
| VDict (d : list (string * value))
| VObj (cls : cref) (fields : list (string * value)).

Definition dict : Type := list (string * value).

(** Exceptions.  [ValidationError] is pydantic's (a [ValueError]);
    [RecursionError] is raised when the interpreter's stack is exhausted. *)
Inductive exn : Type :=
| ConfigurationError (msg : string)
| ModuleNotFoundError (name : string)
| AttributeError (msg : string)
| ValueError (msg : string)
| TypeError (msg : string)
| ValidationError
| RecursionError.

Inductive result (A : Type) : Type :=
| Ok (a : A)
| Raise (e : exn).

Arguments Ok {A} a.
Arguments Raise {A} e.

Definition bind {A B : Type} (r : result A) (k : A -> result B) : result B :=
  match r with
  | Ok a => k a
  | Raise e => Raise e
  end.

Notation "x <- c ;; k" := (bind c (fun x => k))
  (at level 61, c at next level, right associativity).

(** Modelled from the spec: [ConfigurationError] is imported from the
    package's [__init__], which is not part of the sources at hand.  The
    errors it reports "propagate uncaught through the entire construction
    call stack" (and the tests expect it from the outermost constructor), so
    it is none of the exception classes pydantic catches inside validators:
    [ValueError], [TypeError] and [AssertionError]. *)
Definition caught_by_pydantic (e : exn) : bool :=
  match e with
  | ValueError _ | TypeError _ | ValidationError => true
  | ConfigurationError _ | ModuleNotFoundError _ | AttributeError _
  | RecursionError => false
  end.

(** ** Dictionaries *)

Module Dict.

Fixpoint get {A : Type} (k : string) (d : list (string * A)) : option A :=
  match d with
  | [] => None
  | (k', v) :: d' => if String.eqb k k' then Some v else get k d'
  end.

Definition has {A : Type} (k : string) (d : list (string * A)) : bool :=
  match get k d with Some _ => true | None => false end.

(** [d[k] = v]: an existing key keeps its position. *)
Fixpoint set {A : Type} (k : string) (v : A) (d : list (string * A))
  : list (string * A) :=
  match d with
  | [] => [(k, v)]
  | (k', v') :: d' =>
      if String.eqb k k' then (k, v) :: d' else (k', v') :: set k v d'
  end.

(** [del d[k]] *)
Definition del {A : Type} (k : string) (d : list (string * A))
  : list (string * A) :=
  filter (fun kv => negb (String.eqb k (fst kv))) d.

Definition keys {A : Type} (d : list (string * A)) : list string :=
  map fst d.

End Dict.

Definition str_in (k : string) (l : list string) : bool :=
  existsb (String.eqb k) l.

(** ** Classes, modules and the running program *)

Inductive ftype : Type :=
| TAny
| TStr
| TBool
| TOptional (t : ftype)
| TList (t : ftype)
| TDict (t : ftype)          (* Dict[str, t] *)
| TModel (c : cref).

(** A declared field; [f_default = None] is a required field. *)
Record field : Type := Field {
  f_name : string;
  f_type : ftype;
  f_default : option value
}.

(** What the model knows of a class: its proper ancestors in method
    resolution order and the fields its hierarchy declares below
    [BaseElementCfg]. *)
Record class_def : Type := ClassDef {
  c_ancestors : list cref;
  c_fields : list field
}.

(** An attribute of a module: a class, or anything else. *)
Inductive attr : Type :=
| AClass (c : cref)
| AOther.

(** The running program: its classes and the modules that can be imported. *)
Record World : Type := MkWorld {
  w_class : cref -> class_def;
  w_module : string -> option (list (string * attr))
}.

Definition BaseModel : cref := Cref "pydantic.main" "BaseModel".
Definition BaseContainerCfg : cref := Cref "py_config.base_config" "BaseContainerCfg".
Definition BaseElementCfg : cref := Cref "py_config.base_config" "BaseElementCfg".

(** [inspect.getmro(cls)] *)
Definition getmro (W : World) (c : cref) : list cref :=
  c :: c_ancestors (w_class W c).

Definition class_in (c : cref) (l : list cref) : bool :=
  existsb (cref_eqb c) l.

(** [issubclass(c, base)] *)
Definition derives (W : World) (c base : cref) : bool :=
  class_in base (getmro W c).

(** [isinstance(v, BaseElementCfg)] *)
Definition is_element (W : World) (v : value) : bool :=
  match v with
  | VObj c _ => derives W c BaseElementCfg
  | _ => false
  end.

(** The three fields [BaseElementCfg] declares. *)
Definition element_fields : list field :=
  [ Field "class_path" (TOptional TStr) (Some VNone);
    Field "base_class" (TOptional TBool) (Some VNone);
    Field "kwargs" (TOptional (TDict TAny)) (Some VNone) ].

(** [cls.__fields__]: inherited fields come first. *)
Definition model_fields (W : World) (c : cref) : list field :=
  if derives W c BaseElementCfg
  then element_fields ++ c_fields (w_class W c)
  else c_fields (w_class W c).

(** ** class_from_name *)

(** [s.rsplit(".", 1)] when [s] has a dot: the text before and after the
    last one. *)
Fixpoint rsplit_dot (s : string) : option (string * string) :=
  match s with
  | EmptyString => None
  | String c rest =>
      match rsplit_dot rest with
      | Some (m, n) => Some (String c m, n)
      | None => if Ascii.eqb c "."%char then Some (EmptyString, rest) else None
      end
  end.

Definition starts_with_dot (s : string) : bool :=
  match s with
  | String c _ => Ascii.eqb c "."%char
  | EmptyString => false
  end.

(** [importlib.import_module(name)], with no package to resolve a relative
    name against.  [w_module] says which absolute names can be imported. *)
Definition import_module (W : World) (name : string)
  : result (list (string * attr)) :=
  if starts_with_dot name then
    Raise (TypeError "the 'package' argument is required to perform a relative import")
  else if String.eqb name "" then Raise (ValueError "Empty module name")
  else match w_module W name with
       | Some ns => Ok ns
       | None => Raise (ModuleNotFoundError name)
       end.

(** [getattr(module, name)] *)
Definition getattr_module (ns : list (string * attr)) (name : string)
  : result attr :=
  match Dict.get name ns with
  | Some a => Ok a
  | None => Raise (AttributeError ("module has no attribute '" ++ name ++ "'"))
  end.

(** [class_path.rsplit(".", 1)], and the main scope for a name without a
    dot. *)
Definition split_class_path (class_path : string) : string * string :=
  match rsplit_dot class_path with
  | Some mn => mn
  | None => ("__main__", class_path)
  end.

Definition class_from_name (W : World) (class_path : string) : result attr :=
  let '(module_name, class_name) := split_class_path class_path in
  module <- import_module W module_name ;;
  getattr_module module class_name.

(** *** The table of loaded modules

    [import_module] also has an effect: it enters what it loads in
    [sys.modules].  The functions below are [import_module] and
    [class_from_name] once more, with that table passed along as the list of
    the names it holds.  The modules themselves are those of [w_module],
    which knows every module the program can get at, so that a table names
    modules of [w_module] only.  What the code of a module does when it is
    loaded is not followed. *)





(** ** BaseElementCfg.args_to_kwargs *)

Definition missing_class_path : exn :=
  ConfigurationError "'class_path' is required for configurable object.".

(** [{k: v for k, v in values.items() if k not in ["class_path", "base_class"]}] *)
Definition captured (values : dict) : dict :=
  filter (fun kv => negb (str_in (fst kv) ["class_path"; "base_class"])) values.

Definition args_to_kwargs (values : dict) : result dict :=
  if negb (Dict.has "class_path" values) then Raise missing_class_path
  else if negb (Dict.has "base_class" values) then
    Ok (Dict.set "kwargs" (VDict (captured values)) values)
  else Ok (Dict.del "class_path" (Dict.del "base_class" values)).

(** ** pydantic: validating one field *)

Definition lower_ascii (c : ascii) : ascii :=
  let n := nat_of_ascii c in
  if ((65 <=? n) && (n <=? 90))%nat then ascii_of_nat (n + 32) else c.

Fixpoint lower (s : string) : string :=
  match s with
  | EmptyString => EmptyString
  | String c s' => String (lower_ascii c) (lower s')
  end.

(** [str_validator]: a string as it is, a number (a [bool] is one) printed. *)
Definition str_validator (v : value) : result value :=
  match v with
  | VStr s => Ok (VStr s)
  | VBool b => Ok (VStr (if b then "True" else "False"))
  | _ => Raise (TypeError "str type expected")
  end.

(** [bool_validator] *)
Definition bool_validator (v : value) : result value :=
  match v with
  | VBool b => Ok (VBool b)
  | VStr s =>
      if str_in (lower s) ["1"; "on"; "t"; "true"; "y"; "yes"] then Ok (VBool true)
      else if str_in (lower s) ["0"; "off"; "f"; "false"; "n"; "no"] then Ok (VBool false)
      else Raise (TypeError "value could not be parsed to a boolean")
  | _ => Raise (TypeError "value could not be parsed to a boolean")
  end.

(** Validating the members of a sequence: every member is tried, the errors
    pydantic catches are collected (the flag), any other exception leaves at
    once. *)
Fixpoint validate_members (f : value -> result value) (l : list value)
  : result (list value * bool) :=
  match l with
  | [] => Ok ([], false)
  | x :: l' =>
      match f x with
      | Ok y => r <- validate_members f l' ;; Ok (y :: fst r, snd r)
      | Raise e =>
          if caught_by_pydantic e
          then r <- validate_members f l' ;; Ok (fst r, true)
          else Raise e
      end
  end.

(** The same for the items of a mapping; the result is filled item by
    item. *)
Fixpoint validate_items (f : value -> result value) (d acc : dict)
  : result (dict * bool) :=
  match d with
  | [] => Ok (acc, false)
  | (k, x) :: d' =>
      match f x with
      | Ok y => validate_items f d' (Dict.set k y acc)
      | Raise e =>
          if caught_by_pydantic e
          then r <- validate_items f d' acc ;; Ok (fst r, true)
          else Raise e
      end
  end.

Definition collected {A : Type} (wrap : A -> value) (r : result (A * bool))
  : result value :=
  p <- r ;; if snd p then Raise ValidationError else Ok (wrap (fst p)).

(** *** dict(value)

    Where a mapping is expected and the value is not one, pydantic calls
    [dict(value)].  A model gives its fields; an empty string or sequence
    gives the empty mapping; a sequence gives a mapping when each member is
    itself a sequence of length two whose first element can be hashed.  The
    keys of such a mapping need not be strings.  (Strings are taken to be
    ASCII: one character, one byte.) *)
Inductive pykey : Type :=
| KNone
| KBool (b : bool)
| KStr (s : string)
| KTuple.          (* a [(name, value)] pair of a model: never a valid key *)

Definition pykey_eqb (a b : pykey) : bool :=
  match a, b with
  | KNone, KNone => true
  | KBool x, KBool y => Bool.eqb x y
  | KStr x, KStr y => String.eqb x y
  | _, _ => false
  end.

(** [hash(v)] succeeds on [None], a [bool] and a [str]; lists, dicts and
    models cannot be hashed. *)
Definition hashable_key (v : value) : option pykey :=
  match v with
  | VNone => Some KNone
  | VBool b => Some (KBool b)
  | VStr s => Some (KStr s)
  | _ => None
  end.

(** One member of the sequence, read as a key and a value: a string of two
    characters, a list of two elements, a dict of two items (its keys), a
    model of two fields (its [(name, value)] pairs). *)
Definition pair_of (item : value) : option (pykey * value) :=
  match item with
  | VStr (String a (String b EmptyString)) =>
      Some (KStr (String a EmptyString), VStr (String b EmptyString))
  | VList [k; v] =>
      match hashable_key k with
      | Some key => Some (key, v)
      | None => None
      end
  | VDict [(k1, _); (k2, _)] => Some (KStr k1, VStr k2)
  | VObj _ [(_, v1); (n2, v2)] =>
      match hashable_key v1 with
      | Some _ => Some (KTuple, VList [VStr n2; v2])
      | None => None
      end
  | _ => None
  end.

Fixpoint pairs_set (k : pykey) (v : value) (d : list (pykey * value))
  : list (pykey * value) :=
  match d with
  | [] => [(k, v)]
  | (k', v') :: d' =>
      if pykey_eqb k k' then (k', v) :: d' else (k', v') :: pairs_set k v d'
  end.

Fixpoint pairs_of (items : list value) (acc : list (pykey * value))
  : option (list (pykey * value)) :=
  match items with
  | [] => Some acc
  | x :: items' =>
      match pair_of x with
      | Some (k, v) => pairs_of items' (pairs_set k v acc)
      | None => None
      end
  end.

(** [dict(v)]; [None] when it raises ([TypeError] or [ValueError]). *)
Definition dict_of (v : value) : option (list (pykey * value)) :=
  match v with
  | VDict d => Some (map (fun kv => (KStr (fst kv), snd kv)) d)
  | VObj _ fs => Some (map (fun kv => (KStr (fst kv), snd kv)) fs)
  | VStr EmptyString => Some []
  | VList l => pairs_of l []
  | _ => None
  end.

(** [cls( **d )] needs string keys. *)
Fixpoint keywords (d : list (pykey * value)) : option dict :=
  match d with
  | [] => Some []
  | (KStr k, v) :: d' =>
      match keywords d' with
      | Some kw => Some ((k, v) :: kw)
      | None => None
      end
  | _ => None
  end.

(** The key of a [Dict[str, ...]] field: [str_validator] on the key. *)
Definition key_str (k : pykey) : option string :=
  match k with
  | KStr s => Some s
  | KBool b => Some (if b then "True" else "False")
  | KNone | KTuple => None
  end.

(** The items of a mapping whose keys may fail: the value of a key that
    fails is not looked at. *)
Fixpoint validate_pairs (f : value -> result value)
    (d : list (pykey * value)) (acc : dict) : result (dict * bool) :=
  match d with
  | [] => Ok (acc, false)
  | (k, x) :: d' =>
      match key_str k with
      | None => r <- validate_pairs f d' acc ;; Ok (fst r, true)
      | Some ks =>
          match f x with
          | Ok y => validate_pairs f d' (Dict.set ks y acc)
          | Raise e =>
              if caught_by_pydantic e
              then r <- validate_pairs f d' acc ;; Ok (fst r, true)
              else Raise e
          end
      end
  end.

(** [ModelField.validate].  [rec c d] is [c( **d )].  Where a model is
    declared, an instance of it is taken as it is, a mapping is handed to
    the constructor, and anything else goes through [dict(value)] first;
    where a [Dict] is declared, anything that is not a mapping goes through
    [dict(value)] as well. *)
Fixpoint validate_field (W : World) (rec : cref -> dict -> result value)
    (t : ftype) (v : value) {struct t} : result value :=
  match t with
  | TAny => Ok v
  | TOptional t' =>
      match v with
      | VNone => Ok VNone
      | _ => validate_field W rec t' v
      end
  | TStr =>
      match v with
      | VNone => Raise (TypeError "none is not an allowed value")
      | _ => str_validator v
      end
  | TBool =>
      match v with
      | VNone => Raise (TypeError "none is not an allowed value")
      | _ => bool_validator v
      end
  | TList t' =>
      match v with
      | VList l => collected VList (validate_members (validate_field W rec t') l)
      | VNone => Raise (TypeError "none is not an allowed value")
      | _ => Raise (TypeError "value is not a valid list")
      end
  | TDict t' =>
      match v with
      | VDict d => collected VDict (validate_items (validate_field W rec t') d [])
      | VObj _ fs => collected VDict (validate_items (validate_field W rec t') fs [])
      | VNone => Raise (TypeError "none is not an allowed value")
      | _ =>
          match dict_of v with
          | Some pairs =>
              collected VDict (validate_pairs (validate_field W rec t') pairs [])
          | None => Raise (TypeError "value is not a valid dict")
          end
      end
  | TModel c =>
      match v with
      | VDict d => rec c d
      | VObj c' fs => if derives W c' c then Ok v else rec c fs
      | VNone => Raise (TypeError "none is not an allowed value")
      | _ =>
          match dict_of v with
          | Some pairs =>
              match keywords pairs with
              | Some d => rec c d
              | None => Raise (TypeError "keywords must be strings")
              end
          | None => Raise (TypeError "value is not a valid dict")
          end
      end
  end.

(** One pass of the loop of [validate_model] over the declared fields: the
    new [values], and whether an error was recorded.  A missing required
    field and a field that fails to validate are recorded and left out of
    [values]; a missing optional field takes its default. *)
Definition validate_one (W : World) (rec : cref -> dict -> result value)
    (f : field) (data values : dict) : result (dict * bool) :=
  match Dict.get (f_name f) data with
  | None =>
      match f_default f with
      | None => Ok (values, true)
      | Some dflt => Ok (Dict.set (f_name f) dflt values, false)
      end
  | Some v =>
      match validate_field W rec (f_type f) v with
      | Ok v' => Ok (Dict.set (f_name f) v' values, false)
      | Raise e => if caught_by_pydantic e then Ok (values, true) else Raise e
      end
  end.

Fixpoint validate_fields (W : World) (rec : cref -> dict -> result value)
    (fields : list field) (data values : dict) : result (dict * bool) :=
  match fields with
  | [] => Ok (values, false)
  | f :: fields' =>
      s <- validate_one W rec f data values ;;
      r <- validate_fields W rec fields' data (fst s) ;;
      Ok (fst r, snd s || snd r)
  end.

(** ** BaseElementCfg.specialize_field *)

(** [str(cls)] *)
Definition class_repr (c : cref) : string :=
  "<class '" ++ cr_module c ++ "." ++ cr_name c ++ "'>".

(** The name a class is known by across modules. *)
Definition qualified_name (c : cref) : string :=
  cr_module c ++ "." ++ cr_name c.

Definition not_a_subclass (specialized_cls self_class : cref) : exn :=
  ConfigurationError
    ("Specialization '" ++ class_repr specialized_cls
       ++ "' must be a subclass of '" ++ class_repr self_class ++ "'.").

(** [{"class_path": cls.__name__, **kwargs, "base_class": False}] *)
Definition specialize_args (specialized_cls : cref) (kwargs : dict) : dict :=
  Dict.set "base_class" (VBool false)
    (fold_left (fun acc kv => Dict.set (fst kv) (snd kv) acc) kwargs
       [("class_path", VStr (cr_name specialized_cls))]).

(** [rec cls args] is [pydantic.parse_obj_as(cls, args)], which for a
    mapping is [cls( **args )]. *)
Definition specialize_field (W : World) (rec : cref -> dict -> result value)
    (self : value) : result value :=
  match self with
  | VObj self_class fs =>
      match Dict.get "class_path" fs with
      | Some (VStr class_path) =>
          a <- class_from_name W class_path ;;
          match a with
          | AClass specialized_cls =>
              if negb (class_in self_class (getmro W specialized_cls))
              then Raise (not_a_subclass specialized_cls self_class)
              else
                match Dict.get "kwargs" fs with
                | Some (VDict kwargs) =>
                    rec specialized_cls (specialize_args specialized_cls kwargs)
                | _ => Raise (TypeError "argument after ** must be a mapping")
                end
          | AOther => Raise (AttributeError "__mro__")
          end
      | _ => Raise (AttributeError "object has no attribute 'rsplit'")
      end
  | _ => Raise (AttributeError "object has no attribute 'specialize_field'")
  end.

(** ** BaseContainerCfg.specialize *)

Definition type_name (v : value) : string :=
  match v with
  | VNone => "NoneType"
  | VBool _ => "bool"
  | VStr _ => "str"
  | VList _ => "list"
  | VDict _ => "dict"
  | VObj c _ => cr_name c
  end.

(** [obj.name = x]: a model accepts an assignment to one of its fields;
    other objects have no such attribute to assign. *)
Definition set_attr (W : World) (name : string) (x : value) (v : value)
  : result value :=
  match v with
  | VObj c fs =>
      if str_in name (map f_name (model_fields W c))
      then Ok (VObj c (Dict.set name x fs))
      else Raise (ValueError ("object has no field " ++ name))
  | _ =>
      Raise (AttributeError
               ("'" ++ type_name v ++ "' object has no attribute '" ++ name ++ "'"))
  end.

(** [element.class_path = element.base_class = element.kwargs = None]: the
    targets are assigned from left to right. *)
Definition clear_element (W : World) (element : value) : result value :=
  e1 <- set_attr W "class_path" VNone element ;;
  e2 <- set_attr W "base_class" VNone e1 ;;
  set_attr W "kwargs" VNone e2.

(** The body of the [isinstance(v, List)] branch. *)
Fixpoint specialize_list (W : World) (v : list value) : result (list value) :=
  match v with
  | [] => Ok []
  | element :: v' =>
      e <- clear_element W element ;;
      elements <- specialize_list W v' ;;
      Ok (e :: elements)
  end.

(** The body of the [isinstance(v, Dict)] branch; [elements] is the
    dictionary being filled. *)
Fixpoint specialize_dict (W : World) (v elements : dict) : result dict :=
  match v with
  | [] => Ok elements
  | (kk, element) :: v' =>
      if is_element W element
      then e <- clear_element W element ;;
           specialize_dict W v' (Dict.set kk e elements)
      else specialize_dict W v' (Dict.set kk element elements)
  end.

(** What one pass of the loop stores under the key of [v]. *)
Definition specialize_value (W : World) (rec : cref -> dict -> result value)
    (v : value) : result value :=
  match v with
  | VList l => elements <- specialize_list W l ;; Ok (VList elements)
  | VDict d => elements <- specialize_dict W d [] ;; Ok (VDict elements)
  | _ => if is_element W v then specialize_field W rec v else Ok v
  end.

Fixpoint specialize_loop (W : World) (rec : cref -> dict -> result value)
    (items specialized_values : dict) : result dict :=
  match items with
  | [] => Ok specialized_values
  | (k, v) :: items' =>
      v' <- specialize_value W rec v ;;
      specialize_loop W rec items' (Dict.set k v' specialized_values)
  end.

Definition specialize (W : World) (rec : cref -> dict -> result value)
    (values : dict) : result dict :=
  specialize_loop W rec values [].

(** ** pydantic: constructing a model *)

(** Root validators are inherited: every class below [BaseElementCfg] runs
    [args_to_kwargs] first, every class below [BaseContainerCfg] runs
    [specialize] last. *)
Definition pre_root (W : World) (c : cref) (data : dict) : result dict :=
  if derives W c BaseElementCfg then args_to_kwargs data else Ok data.

Definition post_root (W : World) (rec : cref -> dict -> result value)
    (c : cref) (values : dict) : result dict :=
  if derives W c BaseContainerCfg || derives W c BaseElementCfg
  then specialize W rec values
  else Ok values.

Definition reraise {A : Type} (e : exn) : result A :=
  Raise (if caught_by_pydantic e then ValidationError else e).

(** [validate_model] followed by [BaseModel.__init__]: an object is made only
    when nothing was recorded. *)
Definition validate_model (W : World) (rec : cref -> dict -> result value)
    (c : cref) (data : dict) : result value :=
  match pre_root W c data with
  | Raise e => reraise e
  | Ok input_data =>
      r <- validate_fields W rec (model_fields W c) input_data [] ;;
      match post_root W rec c (fst r) with
      | Raise e => reraise e
      | Ok values => if snd r then Raise ValidationError else Ok (VObj c values)
      end
  end.

(** [c( **data )] with at most [depth] nested constructions. *)
Fixpoint construct (W : World) (depth : nat) (c : cref) (data : dict)
  : result value :=
  match depth with
  | O => Raise RecursionError
  | S depth' => validate_model W (construct W depth') c data
  end.

(** ** pydantic: dumping a model *)

(** [obj.dict(exclude_none=True)]: the fields whose value is [None] are left
    out, at every model of the tree. *)
Fixpoint dump (v : value) : value :=
  match v with
  | VList l => VList (map dump l)
  | VDict d => VDict (map (fun kv => (fst kv, dump (snd kv))) d)
  | VObj _ fs =>
      VDict ((fix dump_fields (fs : dict) : dict :=
                match fs with
                | [] => []
                | (k, VNone) :: fs' => dump_fields fs'
                | (k, x) :: fs' => (k, dump x) :: dump_fields fs'
                end) fs)
  | _ => v
  end.

Definition class_of (v : value) : option cref :=
  match v with
  | VObj c _ => Some c
  | _ => None
  end.

Definition attr_of (name : string) (v : value) : option value :=
  match v with
  | VObj _ fs => Dict.get name fs
  | _ => None
  end.

(** The three attributes are [None]. *)
Definition cleared (v : value) : Prop :=
  attr_of "class_path" v = Some VNone /\
  attr_of "base_class" v = Some VNone /\
  attr_of "kwargs" v = Some VNone.

(** ** The notions the properties are stated with *)

Definition bookkeeping : list string := ["class_path"; "base_class"; "kwargs"].

(** The fields a class adds keep clear of the three names. *)
Definition no_shadow (W : World) (c : cref) : bool :=
  forallb (fun f => negb (str_in (f_name f) bookkeeping)) (c_fields (w_class W c)).

(** No member of the payload is an element object (a parsed document holds
    none). *)
Definition plain_items (W : World) (d : dict) : bool :=
  forallb (fun kv => negb (is_element W (snd kv))) d.

(** The attributes of an object after the three assignments of
    [clear_element]. *)
Definition clear_fields (fs : dict) : dict :=
  Dict.set "kwargs" VNone (Dict.set "base_class" VNone (Dict.set "class_path" VNone fs)).

Definition clear_obj (v : value) : value :=
  match v with
  | VObj c fs => VObj c (clear_fields fs)
  | _ => v
  end.

Definition clear_if_element (W : World) (v : value) : value :=
  if is_element W v then clear_obj v else v.

(** An attribute as the dump shows it. *)
Definition dumped_attr (name : string) (v : value) : option value :=
  match dump v with
  | VDict d => Dict.get name d
  | _ => None
  end.

(** Everything but the three attributes is as before. *)
Definition same_but_bookkeeping (x y : value) : Prop :=
  class_of y = class_of x /\
  forall name, str_in name bookkeeping = false -> attr_of name y = attr_of name x.

(** [plain_position W depth d f o]: the field [f] is declared with an
    element class [base]; the document [d] gives it a mapping [m] with an
    identifier that resolves to a class [cls] below [base]; [base] accepts
    [m] and [cls] accepts the payload of [m], returning [o]. *)
Definition plain_position (W : World) (depth : nat) (d : dict) (f : field)
    (o : value) : Prop :=
  exists base m class_path cls first,
    f_type f = TModel base /\
    derives W base BaseElementCfg = true /\
    no_shadow W base = true /\
    Dict.get (f_name f) d = Some (VDict m) /\
    NoDup (Dict.keys m) /\
    plain_items W m = true /\
    Dict.get "class_path" m = Some (VStr class_path) /\
    Dict.has "base_class" m = false /\
    construct W depth base m = Ok first /\
    class_from_name W class_path = Ok (AClass cls) /\
    class_in base (getmro W cls) = true /\
    construct W depth cls (specialize_args cls (captured m)) = Ok o.

(** [settled_field W depth d f o]: any other field, for which the document
    has a value that validates and that the pass turns into [o]. *)
Definition settled_field (W : World) (depth : nat) (d : dict) (f : field)
    (o : value) : Prop :=
  exists v,
    (forall values,
       validate_one W (construct W depth) f d values
       = Ok (Dict.set (f_name f) v values, false)) /\
    specialize_value W (construct W depth) v = Ok o.

(** What the position holds in the end: an instance of exactly the class
    the identifier of the document resolves to, constructed from the
    payload. *)
Definition holds_resolved (W : World) (depth : nat) (d : dict) (f : field)
    (o : value) : Prop :=
  exists m class_path cls,
    Dict.get (f_name f) d = Some (VDict m) /\
    Dict.get "class_path" m = Some (VStr class_path) /\
    class_from_name W class_path = Ok (AClass cls) /\
    class_of o = Some cls /\
    construct W depth cls (specialize_args cls (captured m)) = Ok o.

(** The error taxonomy of the specification. *)
Definition MissingTypeIdentifier : exn := missing_class_path.

Definition NotASubclass (resolved base : cref) : exn := not_a_subclass resolved base.


(** A step that lets the enclosing constructor go on: it returned, or it
    raised what pydantic records. *)
Definition survives {A : Type} (r : result A) : bool :=
  match r with
  | Ok _ => true
  | Raise e => caught_by_pydantic e
  end.

Definition returns {A : Type} (r : result A) : bool :=
  match r with
  | Ok _ => true
  | Raise _ => false
  end.

(** [meets_missing W depth t v]: validating the document [v] against the
    declared type [t], the first thing to stop the constructors is a Dynamic
    Element mapping without [class_path].  The mapping may be the value of a
    field, a member of a sequence, a value of a map, or sit in the payload
    that [specialize_field] hands to the resolved class, at any depth. *)
Inductive meets_missing (W : World) : nat -> ftype -> value -> Prop :=
| MM_element depth c d :
    derives W c BaseElementCfg = true ->
    Dict.has "class_path" d = false ->
    meets_missing W (S depth) (TModel c) (VDict d)
| MM_optional depth t v :
    meets_missing W depth t v ->
    meets_missing W depth (TOptional t) v
| MM_member depth t before x after :
    Forall (fun y => survives (validate_field W (construct W depth) t y) = true)
           before ->
    meets_missing W depth t x ->
    meets_missing W depth (TList t) (VList (before ++ x :: after)%list)
| MM_map_value depth t before k x after :
    Forall (fun kv => survives (validate_field W (construct W depth) t (snd kv)) = true)
           before ->
    meets_missing W depth t x ->
    meets_missing W depth (TDict t) (VDict (before ++ (k, x) :: after)%list)
| MM_field depth c d input_data before f after v :
    pre_root W c d = Ok input_data ->
    model_fields W c = (before ++ f :: after)%list ->
    returns (validate_fields W (construct W depth) before input_data []) = true ->
    Dict.get (f_name f) input_data = Some v ->
    meets_missing W depth (f_type f) v ->
    meets_missing W (S depth) (TModel c) (VDict d)
| MM_payload depth c d input_data values errors
             before k self_class fs class_path cls kwargs after :
    pre_root W c d = Ok input_data ->
    validate_fields W (construct W depth) (model_fields W c) input_data []
      = Ok (values, errors) ->
    derives W c BaseContainerCfg || derives W c BaseElementCfg = true ->
    values = (before ++ (k, VObj self_class fs) :: after)%list ->
    Forall (fun kv => returns (specialize_value W (construct W depth) (snd kv)) = true)
           before ->
    derives W self_class BaseElementCfg = true ->
    Dict.get "class_path" fs = Some (VStr class_path) ->
    class_from_name W class_path = Ok (AClass cls) ->
    class_in self_class (getmro W cls) = true ->
    Dict.get "kwargs" fs = Some (VDict kwargs) ->
    meets_missing W depth (TModel cls) (VDict (specialize_args cls kwargs)) ->
    meets_missing W (S depth) (TModel c) (VDict d).

(** [reachable v e]: the object [e] is found in [v] through members, map
    values and attributes. *)
Inductive reachable : value -> value -> Prop :=
| R_here c fs : reachable (VObj c fs) (VObj c fs)
| R_member l x e : In x l -> reachable x e -> reachable (VList l) e
| R_map_value d k x e : In (k, x) d -> reachable x e -> reachable (VDict d) e
| R_attribute c fs k x e : In (k, x) fs -> reachable x e -> reachable (VObj c fs) e.

(** ** Further notions *)

(** The string has no dot. *)
Fixpoint no_dot (s : string) : bool :=
  match s with
  | EmptyString => true
  | String c s' => negb (Ascii.eqb c "."%char) && no_dot s'
  end.

(** [v] is an object whose class declares the three fields [clear_element]
    assigns. *)
Definition declares_bookkeeping (W : World) (v : value) : bool :=
  match v with
  | VObj c _ =>
      forallb (fun name => str_in name (map f_name (model_fields W c))) bookkeeping
  | _ => false
  end.

(** "Just a plain old field": not a list, not a dict, not an element. *)
Definition plain_value (W : World) (v : value) : bool :=
  match v with
  | VList _ | VDict _ => false
  | _ => negb (is_element W v)
  end.

(** What is left of the arguments once [args_to_kwargs] has deleted the
    two keys. *)
Definition stripped (args : dict) : dict :=
  Dict.del "class_path" (Dict.del "base_class" args).

(** The attributes every specialised element starts with. *)
Definition empty_bookkeeping : dict :=
  [("class_path", VNone); ("base_class", VNone); ("kwargs", VNone)].

(** ** The program of base_config_test.py *)

Module TestWorld.

Definition test_module : string := "base_config_test".

Definition BaseItem : cref := Cref test_module "BaseItem".
Definition Item1 : cref := Cref test_module "Item1".
Definition Item2 : cref := Cref test_module "Item2".
Definition ContainerCfg : cref := Cref test_module "ContainerCfg".
Definition ItemX : cref := Cref test_module "ItemX".
Definition ContainerX : cref := Cref test_module "ContainerX".
Definition ContainerList : cref := Cref test_module "ContainerList".
Definition ContainerDict : cref := Cref test_module "ContainerDict".

(** Two more aggregates, in a module of their own: one with a list of
    plain strings, one with a map of maps of elements. *)
Definition more_module : string := "more_config".
Definition Tagged : cref := Cref more_module "Tagged".
Definition Grouped : cref := Cref more_module "Grouped".
(** And an element that holds another element. *)
Definition Wrapper : cref := Cref more_module "Wrapper".
(** And an aggregate with a list of elements of the base class. *)
Definition Bag : cref := Cref more_module "Bag".

Definition model_bases : list cref := [BaseModel].
Definition container_bases : list cref := BaseContainerCfg :: model_bases.
Definition element_bases : list cref := BaseElementCfg :: container_bases.

Definition required (name : string) (t : ftype) : field := Field name t None.

Definition classes : list (cref * class_def) :=
  [ (BaseModel, ClassDef [] []);
    (BaseContainerCfg, ClassDef model_bases []);
    (BaseElementCfg, ClassDef container_bases []);
    (BaseItem, ClassDef element_bases []);
    (Item1, ClassDef (BaseItem :: element_bases) [required "arg1" TStr]);
    (Item2, ClassDef (Item1 :: BaseItem :: element_bases)
              [required "arg1" TStr; required "arg2" TStr]);
    (ContainerCfg, ClassDef container_bases
              [required "item1" (TModel BaseItem); required "item2" (TModel BaseItem)]);
    (ItemX, ClassDef element_bases [required "arg1" TStr]);
    (ContainerX, ClassDef container_bases [required "item" (TModel BaseItem)]);
    (ContainerList, ClassDef container_bases [required "items" (TList (TModel Item1))]);
    (ContainerDict, ClassDef container_bases [required "items" (TDict (TModel Item1))]);
    (Tagged, ClassDef container_bases [required "tags" (TList TStr)]);
    (Grouped, ClassDef container_bases
              [required "groups" (TDict (TDict (TModel Item1)))]);
    (Wrapper, ClassDef (BaseItem :: element_bases)
              [required "inner" (TModel BaseItem)]);
    (Bag, ClassDef container_bases [required "items" (TList (TModel BaseItem))]) ].

Fixpoint find_class (c : cref) (l : list (cref * class_def)) : class_def :=
  match l with
  | [] => ClassDef [] []
  | (c', d) :: l' => if cref_eqb c c' then d else find_class c l'
  end.

Definition modules : list (string * list (string * attr)) :=
  [ ("py_config.base_config",
      [ ("importlib", AOther); ("inspect", AOther); ("Dict", AOther);
        ("Type", AOther); ("Any", AOther); ("Optional", AOther);
        ("List", AOther); ("pydantic", AOther); ("root_validator", AOther);
        ("BaseModel", AClass BaseModel); ("class_from_name", AOther);
        ("BaseContainerCfg", AClass BaseContainerCfg);
        ("BaseElementCfg", AClass BaseElementCfg) ]);
    (test_module,
      [ ("List", AOther); ("Dict", AOther); ("pytest", AOther);
        ("BaseElementCfg", AClass BaseElementCfg);
        ("BaseContainerCfg", AClass BaseContainerCfg);
        ("BaseItem", AClass BaseItem); ("Item1", AClass Item1);
        ("Item2", AClass Item2); ("ContainerCfg", AClass ContainerCfg);
        ("test_base_config", AOther); ("test_missing_class_path", AOther);
        ("ItemX", AClass ItemX); ("ContainerX", AClass ContainerX);
        ("test_not_subclass", AOther);
        ("ContainerList", AClass ContainerList);
        ("ContainerDict", AClass ContainerDict);
        ("test_list", AOther); ("test_dict", AOther) ]);
    (more_module,
      [ ("BaseContainerCfg", AClass BaseContainerCfg);
        ("BaseItem", AClass BaseItem); ("Item1", AClass Item1);
        ("Tagged", AClass Tagged); ("Grouped", AClass Grouped);
        ("Wrapper", AClass Wrapper); ("Bag", AClass Bag) ]);
    ("__main__", []) ].

Definition world : World :=
  MkWorld (fun c => find_class c classes) (fun m => Dict.get m modules).

Definition item (class_path : string) (args : dict) : value :=
  VDict (("class_path", VStr class_path) :: args).

(** The attributes of an element as its first construction leaves them. *)
Definition raw (class_path : string) (kwargs : dict) : dict :=
  [ ("class_path", VStr class_path); ("base_class", VNone);
    ("kwargs", VDict kwargs) ].

(** The documents of the five tests. *)
Definition base_config_args : dict :=
  [ ("item1", item "base_config_test.Item1" [("arg1", VStr "arg1")]);
    ("item2", item "base_config_test.Item2"
                [("arg1", VStr "arg1"); ("arg2", VStr "arg2")]) ].

Definition missing_class_path_args : dict :=
  [ ("item1", VDict [("arg1", VStr "arg1")]);
    ("item2", item "base_config_test.Item2"
                [("arg1", VStr "arg1"); ("arg2", VStr "arg2")]) ].

Definition not_subclass_args : dict :=
  [ ("item", item "base_config_test.ItemX" [("arg1", VStr "arg1")]) ].

Definition list_cfg : dict :=
  [ ("items", VList [ item "base_config_test.Item1" [("arg1", VStr "arg1.1")];
                      item "base_config_test.Item1" [("arg1", VStr "arg1.2")] ]) ].

Definition dict_cfg : dict :=
  [ ("items", VDict [ ("a", item "p_test.Item" [("arg1", VStr "arg1.1")]);
                      ("b", item "p_test.Item" [("arg1", VStr "arg1.2")]) ]) ].

(** The values the pass of [ContainerList] and of [ContainerDict] receives
    for the documents of [test_list] and [test_dict], and what it leaves. *)
Definition first_pass (class_path arg1 : string) : value :=
  VObj Item1 (raw class_path [("arg1", VStr arg1)] ++ [("arg1", VStr arg1)]).

Definition cleaned (arg1 : string) : value :=
  VObj Item1 [ ("class_path", VNone); ("base_class", VNone); ("kwargs", VNone);
               ("arg1", VStr arg1) ].

Definition list_values : dict :=
  [ ("items", VList [ first_pass "base_config_test.Item1" "arg1.1";
                      first_pass "base_config_test.Item1" "arg1.2" ]) ].

Definition list_result : dict :=
  [ ("items", VList [cleaned "arg1.1"; cleaned "arg1.2"]) ].

Definition dict_values : dict :=
  [ ("items", VDict [ ("a", first_pass "p_test.Item" "arg1.1");
                      ("b", first_pass "p_test.Item" "arg1.2") ]) ].

Definition dict_result : dict :=
  [ ("items", VDict [("a", cleaned "arg1.1"); ("b", cleaned "arg1.2")]) ].

(** Values with an element in each of the three places the pass looks
    at, and what it leaves. *)
Definition mixed_values : dict :=
  [ ("item", VObj BaseItem (raw "base_config_test.Item1" [("arg1", VStr "arg1")]));
    ("items", VList [first_pass "base_config_test.Item1" "arg1.1"]);
    ("by_name", VDict [("a", first_pass "p_test.Item" "arg1.2"); ("n", VStr "plain")]) ].

Definition mixed_result : dict :=
  [ ("item", cleaned "arg1");
    ("items", VList [cleaned "arg1.1"]);
    ("by_name", VDict [("a", cleaned "arg1.2"); ("n", VStr "plain")]) ].

(** What [test_base_config] expects of its document. *)
Definition base_config_result : list value :=
  [ cleaned "arg1";
    VObj Item2 [ ("class_path", VNone); ("base_class", VNone); ("kwargs", VNone);
                 ("arg1", VStr "arg1"); ("arg2", VStr "arg2") ] ].

(** A document for [Bag]: its one member names [Wrapper] and gives its
    field [inner] a mapping without [class_path]. *)
Definition bag_cfg : dict :=
  [ ("items", VList [ item "more_config.Wrapper"
                        [("inner", VDict [("arg1", VStr "arg1")])] ]) ].

(** A document for [ContainerList]: two members that name [Item2] and
    differ in [arg2] only. *)
Definition two_item2_cfg : dict :=
  [ ("items", VList [ item "base_config_test.Item2"
                        [("arg1", VStr "a"); ("arg2", VStr "b1")];
                      item "base_config_test.Item2"
                        [("arg1", VStr "a"); ("arg2", VStr "b2")] ]) ].

(** A document for [Grouped]: one element in a map inside a map. *)
Definition grouped_cfg : dict :=
  [ ("groups",
     VDict [("g", VDict [("a", item "base_config_test.Item1" [("arg1", VStr "x")])])]) ].

(** A document for [ContainerList] that names a class below the declared
    one. *)
Definition list_of_item2_cfg : dict :=
  [ ("items", VList [ item "base_config_test.Item2"
                        [("arg1", VStr "a"); ("arg2", VStr "b")] ]) ].

End TestWorld.


(** * Properties *)

(** ** Facts about dictionaries *)

Section DictFacts.

Context {A : Type}.
Implicit Types (d : list (string * A)) (k : string) (v : A).

Lemma get_set_same k v d : Dict.get k (Dict.set k v d) = Some v.
Proof.
  induction d as [|[k' v'] d IH]; simpl.
  - now rewrite String.eqb_refl.
  - destruct (String.eqb k k') eqn:E; simpl.
    + now rewrite String.eqb_refl.
    + now rewrite E.
Qed.

Lemma get_set_other k k' v d :
  k <> k' -> Dict.get k (Dict.set k' v d) = Dict.get k d.
Proof.
  intros Hne. apply String.eqb_neq in Hne.
  induction d as [|[k0 v0] d IH]; simpl.
  - now rewrite Hne.
  - destruct (String.eqb k' k0) eqn:E; simpl.
    + apply String.eqb_eq in E. subst k0. now rewrite Hne.
    + destruct (String.eqb k k0); auto.
Qed.

Lemma get_none_iff k d : Dict.get k d = None <-> ~ In k (Dict.keys d).
Proof.
  induction d as [|[k' v'] d IH]; simpl.
  - tauto.
  - destruct (String.eqb k k') eqn:E.
    + apply String.eqb_eq in E. subst. split; [discriminate | tauto].
    + apply String.eqb_neq in E. rewrite IH. split.
      * intros H [H1 | H1]; [congruence | tauto].
      * tauto.
Qed.

Lemma get_some_in k v d : Dict.get k d = Some v -> In (k, v) d.
Proof.
  induction d as [|[k' v'] d IH]; simpl; [discriminate|].
  destruct (String.eqb k k') eqn:E.
  - apply String.eqb_eq in E. intros [= ->]. subst. now left.
  - auto.
Qed.

Lemma in_get_some k v d : NoDup (Dict.keys d) -> In (k, v) d -> Dict.get k d = Some v.
Proof.
  induction d as [|[k' v'] d IH]; simpl; [tauto|].
  intros Hnd [H | H].
  - injection H as -> ->. now rewrite String.eqb_refl.
  - inversion Hnd as [|? ? Hnot Hnd']; subst.
    destruct (String.eqb k k') eqn:E.
    + apply String.eqb_eq in E. subst k'. exfalso. apply Hnot.
      change k with (fst (k, v)). now apply in_map.
    + auto.
Qed.

Lemma set_fresh k v d : Dict.get k d = None -> Dict.set k v d = (d ++ [(k, v)])%list.
Proof.
  induction d as [|[k' v'] d IH]; simpl; [reflexivity|].
  destruct (String.eqb k k'); [discriminate|].
  intros H. now rewrite IH.
Qed.

Lemma keys_set k v d :
  Dict.keys (Dict.set k v d)
  = if Dict.has k d then Dict.keys d else (Dict.keys d ++ [k])%list.
Proof.
  unfold Dict.has.
  induction d as [|[k' v'] d IH]; simpl; [reflexivity|].
  destruct (String.eqb k k') eqn:E; simpl.
  - apply String.eqb_eq in E. now subst.
  - rewrite IH. now destruct (Dict.get k d).
Qed.

Lemma has_true_iff k d : Dict.has k d = true <-> In k (Dict.keys d).
Proof.
  unfold Dict.has. destruct (Dict.get k d) eqn:E.
  - split; [|reflexivity]. intros _.
    apply get_some_in in E. change k with (fst (k, a)). now apply in_map.
  - apply get_none_iff in E. split; [discriminate | tauto].
Qed.

Lemma has_false_iff k d : Dict.has k d = false <-> Dict.get k d = None.
Proof.
  unfold Dict.has. destruct (Dict.get k d); split; congruence.
Qed.

Lemma NoDup_keys_set k v d :
  NoDup (Dict.keys d) -> NoDup (Dict.keys (Dict.set k v d)).
Proof.
  intros Hnd. rewrite keys_set. destruct (Dict.has k d) eqn:E; [assumption|].
  apply has_false_iff, get_none_iff in E.
  apply NoDup_app; [assumption | repeat constructor; simpl; tauto |].
  intros x Hx [<- | []]. contradiction.
Qed.

Lemma get_del_same k d : Dict.get k (Dict.del k d) = None.
Proof.
  unfold Dict.del. induction d as [|[k' v'] d IH]; simpl; [reflexivity|].
  destruct (String.eqb k k') eqn:E; simpl; [assumption|].
  now rewrite E.
Qed.

Lemma get_del_other k k' d : k <> k' -> Dict.get k (Dict.del k' d) = Dict.get k d.
Proof.
  intros Hne. unfold Dict.del.
  induction d as [|[k0 v0] d IH]; simpl; [reflexivity|].
  destruct (String.eqb k' k0) eqn:E; simpl.
  - apply String.eqb_eq in E. subst k0.
    apply String.eqb_neq in Hne. now rewrite Hne.
  - now rewrite IH.
Qed.

Lemma get_filter_keys (keep : string -> bool) k d :
  Dict.get k (filter (fun kv => keep (fst kv)) d)
  = if keep k then Dict.get k d else None.
Proof.
  induction d as [|[k' v'] d IH]; simpl.
  - now destruct (keep k).
  - destruct (keep k') eqn:Ek'; simpl.
    + destruct (String.eqb k k') eqn:E.
      * apply String.eqb_eq in E. subst. now rewrite Ek'.
      * assumption.
    + rewrite IH. destruct (String.eqb k k') eqn:E; [|reflexivity].
      apply String.eqb_eq in E. subst. now rewrite Ek'.
Qed.

Lemma NoDup_keys_filter (p : string * A -> bool) d :
  NoDup (Dict.keys d) -> NoDup (Dict.keys (filter p d)).
Proof.
  induction d as [|[k' v'] d IH]; simpl; [auto|].
  intros Hnd. inversion Hnd as [|? ? Hnot Hnd']; subst.
  destruct (p (k', v')); simpl; [|auto].
  constructor; [|auto].
  intros Hin. apply Hnot. unfold Dict.keys in *.
  apply in_map_iff in Hin as [[k0 v0] [Hk Hin]].
  apply filter_In in Hin as [Hin _].
  apply in_map_iff. now exists (k0, v0).
Qed.

End DictFacts.

(** ** The mandatory identifier *)

Lemma reraise_configuration_error {A : Type} msg :
  @reraise A (ConfigurationError msg) = Raise (ConfigurationError msg).
Proof. reflexivity. Qed.

Lemma args_to_kwargs_missing values :
  Dict.has "class_path" values = false ->
  args_to_kwargs values = Raise MissingTypeIdentifier.
Proof.
  intros H. unfold args_to_kwargs. now rewrite H.
Qed.

Lemma construct_element_missing W depth c data :
  derives W c BaseElementCfg = true ->
  Dict.has "class_path" data = false ->
  construct W (S depth) c data = Raise MissingTypeIdentifier.
Proof.
  intros Hel Hc. simpl. unfold validate_model, pre_root.
  rewrite Hel, (args_to_kwargs_missing _ Hc). reflexivity.
Qed.

(** C9. A mapping that carries the resolution marker [base_class] but no
    [class_path] is refused with the missing-identifier error: the check for
    [class_path] comes first in [args_to_kwargs], so the second, resolved
    construction needs the identifier as well. *)
Theorem marker_does_not_waive_class_path W depth c data :
  derives W c BaseElementCfg = true ->
  Dict.has "base_class" data = true ->
  Dict.has "class_path" data = false ->
  args_to_kwargs data = Raise MissingTypeIdentifier /\
  construct W (S depth) c data = Raise MissingTypeIdentifier.
Proof.
  intros Hel _ Hc. split.
  - now apply args_to_kwargs_missing.
  - now apply construct_element_missing.
Qed.

Lemma marker_does_not_waive_class_path_witness :
  args_to_kwargs [("base_class", VBool false); ("arg1", VStr "arg1")]
    = Raise MissingTypeIdentifier /\
  construct TestWorld.world 1 TestWorld.Item1
    [("base_class", VBool false); ("arg1", VStr "arg1")]
    = Raise MissingTypeIdentifier.
Proof.
  apply (marker_does_not_waive_class_path TestWorld.world 0 TestWorld.Item1);
    reflexivity.
Defined.

(** ** The conformance check *)

(** C4. When the class named by [class_path] does not have the class of the
    object [specialize_field] is called on among its ancestors (itself
    included), [specialize_field] raises the not-a-subclass error, whatever
    constructing the resolved class would have given, and pydantic does not
    catch that error. *)
Theorem specialize_field_not_a_subclass W rec self_class fs class_path cls :
  Dict.get "class_path" fs = Some (VStr class_path) ->
  class_from_name W class_path = Ok (AClass cls) ->
  class_in self_class (getmro W cls) = false ->
  specialize_field W rec (VObj self_class fs) = Raise (NotASubclass cls self_class) /\
  specialize_value W rec (VObj self_class fs)
    = (if derives W self_class BaseElementCfg
       then Raise (NotASubclass cls self_class)
       else Ok (VObj self_class fs)) /\
  caught_by_pydantic (NotASubclass cls self_class) = false.
Proof.
  intros Hp Hcls Hmro.
  assert (E : specialize_field W rec (VObj self_class fs)
              = Raise (NotASubclass cls self_class)).
  { unfold specialize_field. rewrite Hp, Hcls. unfold bind. now rewrite Hmro. }
  repeat split; [exact E|].
  unfold specialize_value, is_element.
  destruct (derives W self_class BaseElementCfg); [exact E | reflexivity].
Qed.

Lemma specialize_field_not_a_subclass_witness :
  specialize_field TestWorld.world (construct TestWorld.world 3)
      (VObj TestWorld.BaseItem
         (TestWorld.raw "base_config_test.ItemX" [("arg1", VStr "arg1")]))
    = Raise (NotASubclass TestWorld.ItemX TestWorld.BaseItem) /\
  specialize_value TestWorld.world (construct TestWorld.world 3)
      (VObj TestWorld.BaseItem
         (TestWorld.raw "base_config_test.ItemX" [("arg1", VStr "arg1")]))
    = (if derives TestWorld.world TestWorld.BaseItem BaseElementCfg
       then Raise (NotASubclass TestWorld.ItemX TestWorld.BaseItem)
       else Ok (VObj TestWorld.BaseItem
                  (TestWorld.raw "base_config_test.ItemX" [("arg1", VStr "arg1")]))) /\
  caught_by_pydantic (NotASubclass TestWorld.ItemX TestWorld.BaseItem) = false.
Proof.
  apply (specialize_field_not_a_subclass TestWorld.world
           (construct TestWorld.world 3) TestWorld.BaseItem
           (TestWorld.raw "base_config_test.ItemX" [("arg1", VStr "arg1")])
           "base_config_test.ItemX" TestWorld.ItemX); reflexivity.
Defined.

(** ** The resolver *)

Lemma rsplit_dot_spec s m n :
  rsplit_dot s = Some (m, n) -> s = m ++ "." ++ n /\ rsplit_dot n = None.
Proof.
  revert m. induction s as [|c s IH]; simpl; [discriminate|].
  intros m. destruct (rsplit_dot s) as [[m' n']|] eqn:E.
  - intros [= <- <-]. destruct (IH m' eq_refl) as [-> Hn]. now split.
  - destruct (Ascii.eqb c ".") eqn:Ec; [|discriminate].
    intros [= <- <-]. apply Ascii.eqb_eq in Ec. subst c. now split.
Qed.

Lemma class_from_name_module_not_found W class_path module_name class_name :
  split_class_path class_path = (module_name, class_name) ->
  starts_with_dot module_name = false ->
  module_name <> "" ->
  w_module W module_name = None ->
  class_from_name W class_path = Raise (ModuleNotFoundError module_name).
Proof.
  intros Hs Hrel Hne Hm. unfold class_from_name, import_module.
  rewrite Hs, Hrel. apply String.eqb_neq in Hne. now rewrite Hne, Hm.
Qed.






(** ** The arguments of the second construction *)

Lemma get_fold_set (kwargs init : dict) k :
  NoDup (Dict.keys kwargs) ->
  Dict.get k (fold_left (fun acc kv => Dict.set (fst kv) (snd kv) acc) kwargs init)
  = match Dict.get k kwargs with
    | Some v => Some v
    | None => Dict.get k init
    end.
Proof.
  revert init. induction kwargs as [|[k0 v0] kw IH]; intros init Hnd; simpl.
  - reflexivity.
  - inversion Hnd as [|? ? Hnot Hnd']; subst. rewrite (IH _ Hnd').
    destruct (String.eqb k k0) eqn:E.
    + apply String.eqb_eq in E. subst k0.
      apply get_none_iff in Hnot. rewrite Hnot. apply get_set_same.
    + apply String.eqb_neq in E. destruct (Dict.get k kw); [reflexivity|].
      now apply get_set_other.
Qed.

Lemma get_specialize_args cls kwargs k :
  NoDup (Dict.keys kwargs) ->
  Dict.get k (specialize_args cls kwargs)
  = if String.eqb k "base_class" then Some (VBool false)
    else match Dict.get k kwargs with
         | Some v => Some v
         | None => if String.eqb k "class_path" then Some (VStr (cr_name cls))
                   else None
         end.
Proof.
  intros Hnd. unfold specialize_args.
  destruct (String.eqb k "base_class") eqn:E.
  - apply String.eqb_eq in E. subst. apply get_set_same.
  - apply String.eqb_neq in E. rewrite (get_set_other _ _ _ _ E).
    rewrite (get_fold_set _ _ _ Hnd). simpl.
    now destruct (Dict.get k kwargs), (String.eqb k "class_path").
Qed.

Lemma captured_keys values k :
  Dict.get k (captured values)
  = if str_in k ["class_path"; "base_class"] then None else Dict.get k values.
Proof.
  unfold captured.
  rewrite (get_filter_keys (fun k => negb (str_in k ["class_path"; "base_class"]))).
  now destruct (str_in k ["class_path"; "base_class"]).
Qed.

(** The payload [args_to_kwargs] captures has neither of the two keys. *)
Lemma captured_has_no_marker values :
  Dict.has "class_path" (captured values) = false /\
  Dict.has "base_class" (captured values) = false.
Proof.
  unfold Dict.has. now rewrite !captured_keys.
Qed.

Lemma specialize_field_resolved W rec self_class fs class_path cls kwargs :
  Dict.get "class_path" fs = Some (VStr class_path) ->
  class_from_name W class_path = Ok (AClass cls) ->
  class_in self_class (getmro W cls) = true ->
  Dict.get "kwargs" fs = Some (VDict kwargs) ->
  specialize_field W rec (VObj self_class fs) = rec cls (specialize_args cls kwargs).
Proof.
  intros Hp Hcls Hmro Hkw. unfold specialize_field.
  rewrite Hp, Hcls. unfold bind. now rewrite Hmro, Hkw.
Qed.

(** C7, as the code has it.  When the conformance check passes,
    [specialize_field] returns what constructing the resolved class returns
    on a mapping made of: [class_path], bound to the resolved class's bare
    [__name__] (not its module-qualified name); every item of the captured
    payload [kwargs]; and [base_class], bound to [False].  Nothing else of
    the raw object is handed on. *)
Theorem specialize_field_arguments W rec self_class fs class_path cls kwargs :
  Dict.get "class_path" fs = Some (VStr class_path) ->
  class_from_name W class_path = Ok (AClass cls) ->
  class_in self_class (getmro W cls) = true ->
  Dict.get "kwargs" fs = Some (VDict kwargs) ->
  NoDup (Dict.keys kwargs) ->
  Dict.has "class_path" kwargs = false ->
  Dict.has "base_class" kwargs = false ->
  specialize_field W rec (VObj self_class fs) = rec cls (specialize_args cls kwargs) /\
  Dict.get "class_path" (specialize_args cls kwargs) = Some (VStr (cr_name cls)) /\
  Dict.get "base_class" (specialize_args cls kwargs) = Some (VBool false) /\
  (forall k, k <> "class_path" -> k <> "base_class" ->
             Dict.get k (specialize_args cls kwargs) = Dict.get k kwargs).
Proof.
  intros Hp Hcls Hmro Hkw Hnd Hcp Hbc.
  split; [now apply specialize_field_resolved with class_path|].
  apply has_false_iff in Hcp.
  repeat split.
  - rewrite (get_specialize_args _ _ _ Hnd), Hcp. reflexivity.
  - rewrite (get_specialize_args _ _ _ Hnd). reflexivity.
  - intros k Hk1 Hk2. rewrite (get_specialize_args _ _ _ Hnd).
    apply String.eqb_neq in Hk1, Hk2. rewrite Hk1, Hk2.
    now destruct (Dict.get k kwargs).
Qed.

Lemma specialize_field_arguments_witness :
  specialize_field TestWorld.world (construct TestWorld.world 3)
      (VObj TestWorld.BaseItem
         (TestWorld.raw "base_config_test.Item1" [("arg1", VStr "arg1")]))
    = construct TestWorld.world 3 TestWorld.Item1
        (specialize_args TestWorld.Item1 [("arg1", VStr "arg1")]) /\
  Dict.get "class_path" (specialize_args TestWorld.Item1 [("arg1", VStr "arg1")])
    = Some (VStr (cr_name TestWorld.Item1)) /\
  Dict.get "base_class" (specialize_args TestWorld.Item1 [("arg1", VStr "arg1")])
    = Some (VBool false) /\
  (forall k, k <> "class_path" -> k <> "base_class" ->
             Dict.get k (specialize_args TestWorld.Item1 [("arg1", VStr "arg1")])
             = Dict.get k [("arg1", VStr "arg1")]).
Proof.
  apply (specialize_field_arguments TestWorld.world (construct TestWorld.world 3)
           TestWorld.BaseItem
           (TestWorld.raw "base_config_test.Item1" [("arg1", VStr "arg1")])
           "base_config_test.Item1" TestWorld.Item1 [("arg1", VStr "arg1")]);
    try reflexivity.
  repeat constructor. simpl. tauto.
Defined.

(** C7, as the specification words it, fails: for the first item of
    [test_base_config] the identifier handed on is ["Item1"], while the
    qualified name of the resolved class is ["base_config_test.Item1"]. *)
Lemma specialize_field_passes_bare_name :
  exists args,
    specialize_field TestWorld.world (fun _ d => Ok (VDict d))
      (VObj TestWorld.BaseItem
         (TestWorld.raw "base_config_test.Item1" [("arg1", VStr "arg1")]))
    = Ok (VDict args) /\
    Dict.get "class_path" args = Some (VStr "Item1") /\
    Dict.get "class_path" args <> Some (VStr (qualified_name TestWorld.Item1)).
Proof.
  eexists. split; [reflexivity|]. split; [reflexivity|]. discriminate.
Qed.

(** ** A missing identifier stops every enclosing constructor *)

Lemma validate_members_raises f before x after e :
  Forall (fun y => survives (f y) = true) before ->
  f x = Raise e -> caught_by_pydantic e = false ->
  validate_members f (before ++ x :: after)%list = Raise e.
Proof.
  intros Hb Hx He. induction Hb as [|y before Hy _ IH]; simpl.
  - now rewrite Hx, He.
  - rewrite IH. destruct (f y) as [y'|e']; simpl in *; [reflexivity|].
    now rewrite Hy.
Qed.

Lemma validate_items_raises f before k x after acc e :
  Forall (fun kv => survives (f (snd kv)) = true) before ->
  f x = Raise e -> caught_by_pydantic e = false ->
  validate_items f (before ++ (k, x) :: after)%list acc = Raise e.
Proof.
  intros Hb Hx He. revert acc.
  induction Hb as [|[k0 y] before Hy _ IH]; intros acc; simpl.
  - now rewrite Hx, He.
  - simpl in Hy. destruct (f y) as [y'|e']; simpl in *.
    + apply IH.
    + now rewrite Hy, IH.
Qed.

Lemma validate_fields_raises W rec before f after data values v e :
  returns (validate_fields W rec before data values) = true ->
  Dict.get (f_name f) data = Some v ->
  validate_field W rec (f_type f) v = Raise e ->
  caught_by_pydantic e = false ->
  validate_fields W rec (before ++ f :: after)%list data values = Raise e.
Proof.
  intros Hb Hv Hf He. revert values Hb.
  induction before as [|f0 before IH]; intros values Hb; simpl.
  - unfold validate_one. now rewrite Hv, Hf, He.
  - simpl in Hb.
    destruct (validate_one W rec f0 data values) as [s|]; [simpl in *|discriminate].
    rewrite IH; [reflexivity|].
    now destruct (validate_fields W rec before data (fst s)).
Qed.

Lemma specialize_loop_raises W rec before k x after acc e :
  Forall (fun kv => returns (specialize_value W rec (snd kv)) = true) before ->
  specialize_value W rec x = Raise e ->
  specialize_loop W rec (before ++ (k, x) :: after)%list acc = Raise e.
Proof.
  intros Hb Hx. revert acc.
  induction Hb as [|[k0 y] before Hy _ IH]; intros acc; simpl.
  - now rewrite Hx.
  - simpl in Hy. destruct (specialize_value W rec y); [|discriminate].
    simpl. apply IH.
Qed.

Lemma meets_missing_not_none W depth t v : meets_missing W depth t v -> v <> VNone.
Proof. induction 1; auto; discriminate. Qed.

Lemma meets_missing_raises W depth t v :
  meets_missing W depth t v ->
  validate_field W (construct W depth) t v = Raise MissingTypeIdentifier.
Proof.
  induction 1 as
    [ depth c d Hel Hc
    | depth t v Hm IH
    | depth t before x after Hb Hm IH
    | depth t before k x after Hb Hm IH
    | depth c d input before f after v Hpre Hfs Hb Hv Hm IH
    | depth c d input values errors before k self_class fs class_path cls kwargs
        after Hpre Hval Hpost Hvalues Hb Hel Hp Hcls Hmro Hkw Hm IH ].
  - now apply construct_element_missing.
  - pose proof (meets_missing_not_none _ _ _ _ Hm) as Hne.
    destruct v; solve [contradiction | exact IH].
  - simpl. unfold collected.
    now rewrite (validate_members_raises _ _ _ _ _ Hb IH eq_refl).
  - simpl. unfold collected.
    now rewrite (validate_items_raises _ _ _ _ _ _ _ Hb IH eq_refl).
  - simpl. unfold validate_model. rewrite Hpre, Hfs.
    now rewrite (validate_fields_raises _ _ _ _ _ _ _ _ _ Hb Hv IH eq_refl).
  - simpl. unfold validate_model. rewrite Hpre, Hval. simpl.
    unfold post_root, specialize. rewrite Hpost, Hvalues.
    rewrite (specialize_loop_raises _ _ _ _ _ _ _ MissingTypeIdentifier Hb);
      [reflexivity|].
    unfold specialize_value, is_element. rewrite Hel.
    rewrite (specialize_field_resolved _ _ _ _ _ _ _ Hp Hcls Hmro Hkw).
    exact IH.
Qed.

(** C3, as the code has it.  Whenever the first thing to stop the
    constructors of a document is a Dynamic Element mapping without
    [class_path] -- as the value of a declared field, a member of a declared
    sequence or a value of a declared map, or in one of these ways inside
    the payload of an element that a field holds directly and that
    [specialize_field] resolves, at any depth -- constructing the document
    raises the missing-identifier error, and so returns no object. *)
Theorem missing_class_path_stops_construction W depth c d :
  meets_missing W depth (TModel c) (VDict d) ->
  construct W depth c d = Raise MissingTypeIdentifier.
Proof.
  intros H. exact (meets_missing_raises _ _ _ _ H).
Qed.

Lemma missing_class_path_stops_construction_witness :
  construct TestWorld.world 3 TestWorld.ContainerCfg TestWorld.missing_class_path_args
  = Raise MissingTypeIdentifier.
Proof.
  apply (missing_class_path_stops_construction TestWorld.world 3
           TestWorld.ContainerCfg TestWorld.missing_class_path_args).
  apply (MM_field TestWorld.world 2 TestWorld.ContainerCfg
           TestWorld.missing_class_path_args TestWorld.missing_class_path_args
           [] (TestWorld.required "item1" (TModel TestWorld.BaseItem))
           [TestWorld.required "item2" (TModel TestWorld.BaseItem)]
           (VDict [("arg1", VStr "arg1")])); try reflexivity.
  apply MM_element; reflexivity.
Defined.

(** C3, as the specification words it, fails.  [Bag] declares
    [items: List[BaseItem]]; its member names [Wrapper], a class below
    [BaseItem] whose field [inner] is declared with an element class, and
    gives [inner] a mapping without [class_path].  The member is constructed
    as a [BaseItem] and its payload is never validated: the aggregate is
    constructed without any error.  The same element held directly by a
    field is resolved, and there the missing identifier is found. *)
Lemma payload_of_member_is_not_validated :
  exists payload inner,
    TestWorld.bag_cfg
      = [("items", VList [TestWorld.item "more_config.Wrapper" payload])] /\
    class_from_name TestWorld.world "more_config.Wrapper"
      = Ok (AClass TestWorld.Wrapper) /\
    derives TestWorld.world TestWorld.Wrapper TestWorld.BaseItem = true /\
    c_fields (w_class TestWorld.world TestWorld.Wrapper)
      = [TestWorld.required "inner" (TModel TestWorld.BaseItem)] /\
    derives TestWorld.world TestWorld.BaseItem BaseElementCfg = true /\
    Dict.get "inner" payload = Some (VDict inner) /\
    Dict.has "class_path" inner = false /\
    returns (construct TestWorld.world 3 TestWorld.Bag TestWorld.bag_cfg) = true /\
    construct TestWorld.world 3 TestWorld.ContainerX
      [("item", TestWorld.item "more_config.Wrapper" payload)]
      = Raise MissingTypeIdentifier.
Proof.
  do 2 eexists. repeat split; reflexivity.
Qed.

(** ** Clearing the bookkeeping attributes *)

Lemma get_clear_fields fs name :
  Dict.get name (clear_fields fs)
  = if str_in name bookkeeping then Some VNone else Dict.get name fs.
Proof.
  unfold clear_fields, bookkeeping, str_in. simpl.
  destruct (String.eqb name "kwargs") eqn:E3.
  { apply String.eqb_eq in E3. subst. rewrite get_set_same. reflexivity. }
  apply String.eqb_neq in E3. rewrite (get_set_other _ _ _ _ E3).
  destruct (String.eqb name "base_class") eqn:E2.
  { apply String.eqb_eq in E2. subst. rewrite get_set_same. reflexivity. }
  apply String.eqb_neq in E2. rewrite (get_set_other _ _ _ _ E2).
  destruct (String.eqb name "class_path") eqn:E1.
  { apply String.eqb_eq in E1. subst. rewrite get_set_same. reflexivity. }
  apply String.eqb_neq in E1. rewrite (get_set_other _ _ _ _ E1). reflexivity.
Qed.

Lemma cleared_clear_obj c fs : cleared (VObj c (clear_fields fs)).
Proof.
  unfold cleared. simpl. rewrite !get_clear_fields. auto.
Qed.

Lemma same_but_bookkeeping_clear_obj x : same_but_bookkeeping x (clear_obj x).
Proof.
  destruct x; try (split; reflexivity).
  split; [reflexivity|]. intros name Hname. simpl.
  rewrite get_clear_fields. now rewrite Hname.
Qed.

Lemma NoDup_keys_clear_fields fs :
  NoDup (Dict.keys fs) -> NoDup (Dict.keys (clear_fields fs)).
Proof.
  intros H. unfold clear_fields. now repeat apply NoDup_keys_set.
Qed.

(** The three assignments succeed on an object or not at all. *)
Lemma clear_element_ok W x y :
  clear_element W x = Ok y -> y = clear_obj x /\ exists c fs, x = VObj c fs.
Proof.
  unfold clear_element. destruct x; try discriminate. simpl.
  destruct (str_in "class_path" (map f_name (model_fields W cls)));
    [simpl | discriminate].
  destruct (str_in "base_class" (map f_name (model_fields W cls)));
    [simpl | discriminate].
  destruct (str_in "kwargs" (map f_name (model_fields W cls)));
    [simpl | discriminate].
  intros [= <-]. split; [reflexivity | eauto].
Qed.

Lemma model_fields_element W c :
  derives W c BaseElementCfg = true ->
  model_fields W c = (element_fields ++ c_fields (w_class W c))%list.
Proof.
  intros H. unfold model_fields. now rewrite H.
Qed.

Lemma set_attr_element W c fs name x :
  derives W c BaseElementCfg = true ->
  str_in name bookkeeping = true ->
  set_attr W name x (VObj c fs) = Ok (VObj c (Dict.set name x fs)).
Proof.
  intros Hel Hname. unfold set_attr. rewrite (model_fields_element _ _ Hel).
  unfold str_in, bookkeeping in *. simpl in *.
  destruct (String.eqb name "class_path"); [reflexivity|].
  destruct (String.eqb name "base_class"); [reflexivity|].
  destruct (String.eqb name "kwargs"); [reflexivity | discriminate].
Qed.

Lemma clear_element_element W x :
  is_element W x = true -> clear_element W x = Ok (clear_obj x).
Proof.
  destruct x; try discriminate. simpl. intros Hel.
  unfold clear_element.
  rewrite (set_attr_element W cls fields "class_path" VNone Hel eq_refl).
  unfold bind at 1.
  rewrite (set_attr_element W cls _ "base_class" VNone Hel eq_refl).
  unfold bind at 1.
  now rewrite (set_attr_element W cls _ "kwargs" VNone Hel eq_refl).
Qed.

Lemma clear_element_not_object W x :
  class_of x = None ->
  clear_element W x
  = Raise (AttributeError
             ("'" ++ type_name x ++ "' object has no attribute 'class_path'")).
Proof.
  destruct x; try reflexivity. discriminate.
Qed.

Lemma is_element_clear_obj W x : is_element W (clear_obj x) = is_element W x.
Proof. now destruct x. Qed.

(** ** The list branch *)

Lemma specialize_list_ok W l l' :
  specialize_list W l = Ok l' -> Forall2 (fun x y => clear_element W x = Ok y) l l'.
Proof.
  revert l'. induction l as [|x l IH]; simpl; intros l'.
  - intros [= <-]. constructor.
  - destruct (clear_element W x) as [y|] eqn:Ex; [simpl | discriminate].
    destruct (specialize_list W l) as [ys|]; [simpl | discriminate].
    intros [= <-]. constructor; auto.
Qed.

Lemma specialize_list_elements W l :
  Forall (fun x => is_element W x = true) l ->
  specialize_list W l = Ok (map clear_obj l).
Proof.
  induction 1 as [|x l Hx _ IH]; simpl; [reflexivity|].
  now rewrite (clear_element_element _ _ Hx), IH.
Qed.

(** The list branch has no test on the member: the first member that is not
    an object ends the pass with an [AttributeError]. *)
Lemma specialize_list_not_object W x l :
  class_of x = None ->
  specialize_list W (x :: l)
  = Raise (AttributeError
             ("'" ++ type_name x ++ "' object has no attribute 'class_path'")).
Proof.
  intros H. simpl. now rewrite (clear_element_not_object _ _ H).
Qed.

(** ** The dict branch *)

Lemma fold_set_fresh {A B : Type} (g : A -> B) (d : list (string * A))
    (acc : list (string * B)) :
  NoDup (Dict.keys acc ++ Dict.keys d) ->
  fold_left (fun acc kv => Dict.set (fst kv) (g (snd kv)) acc) d acc
  = (acc ++ map (fun kv => (fst kv, g (snd kv))) d)%list.
Proof.
  revert acc. induction d as [|[k v] d IH]; intros acc Hnd; simpl.
  - now rewrite app_nil_r.
  - assert (Hk : Dict.get k acc = None).
    { apply get_none_iff. intros Hin.
      apply NoDup_remove_2 in Hnd. apply Hnd, in_or_app. now left. }
    rewrite (set_fresh _ _ _ Hk), IH.
    + now rewrite <- app_assoc.
    + unfold Dict.keys in *. rewrite map_app, <- app_assoc. exact Hnd.
Qed.

Lemma specialize_dict_fold W d acc :
  specialize_dict W d acc
  = Ok (fold_left (fun acc kv => Dict.set (fst kv) (clear_if_element W (snd kv)) acc)
          d acc).
Proof.
  revert acc. induction d as [|[k x] d IH]; intros acc; simpl; [reflexivity|].
  unfold clear_if_element at 2. simpl.
  destruct (is_element W x) eqn:E.
  - rewrite (clear_element_element _ _ E). simpl. apply IH.
  - apply IH.
Qed.

Lemma specialize_dict_map W d :
  NoDup (Dict.keys d) ->
  specialize_dict W d []
  = Ok (map (fun kv => (fst kv, clear_if_element W (snd kv))) d).
Proof.
  intros Hnd. rewrite specialize_dict_fold. f_equal.
  now apply (fold_set_fresh (clear_if_element W) d []).
Qed.

Lemma get_map_values {A B : Type} (g : A -> B) (d : list (string * A)) k :
  Dict.get k (map (fun kv => (fst kv, g (snd kv))) d) = option_map g (Dict.get k d).
Proof.
  induction d as [|[k' v] d IH]; simpl; [reflexivity|].
  now destruct (String.eqb k k').
Qed.

Lemma keys_map_values {A B : Type} (g : A -> B) (d : list (string * A)) :
  Dict.keys (map (fun kv => (fst kv, g (snd kv))) d) = Dict.keys d.
Proof.
  unfold Dict.keys. rewrite map_map. reflexivity.
Qed.

(** ** The loop over the fields *)

Lemma specialize_loop_ok W rec items acc out :
  NoDup (Dict.keys acc ++ Dict.keys items) ->
  specialize_loop W rec items acc = Ok out ->
  exists results,
    Forall2 (fun kv r => specialize_value W rec (snd kv) = Ok r) items results /\
    out = (acc ++ combine (Dict.keys items) results)%list.
Proof.
  revert acc. induction items as [|[k v] items IH]; intros acc Hnd; simpl.
  - intros [= <-]. exists []. split; [constructor | now rewrite app_nil_r].
  - destruct (specialize_value W rec v) as [r|] eqn:Ev; [simpl | discriminate].
    intros Hloop.
    assert (Hk : Dict.get k acc = None).
    { apply get_none_iff. intros Hin.
      apply NoDup_remove_2 in Hnd. apply Hnd, in_or_app. now left. }
    rewrite (set_fresh _ _ _ Hk) in Hloop.
    apply IH in Hloop.
    + destruct Hloop as [results [HF ->]].
      exists (r :: results). split; [now constructor|].
      simpl. now rewrite <- app_assoc.
    + unfold Dict.keys in *. rewrite map_app, <- app_assoc. exact Hnd.
Qed.

Lemma specialize_loop_total W rec items results acc :
  NoDup (Dict.keys acc ++ Dict.keys items) ->
  Forall2 (fun kv r => specialize_value W rec (snd kv) = Ok r) items results ->
  specialize_loop W rec items acc = Ok (acc ++ combine (Dict.keys items) results)%list.
Proof.
  intros Hnd HF. revert acc Hnd.
  induction HF as [|[k v] r items results Hv _ IH]; intros acc Hnd; simpl.
  - now rewrite app_nil_r.
  - simpl in Hv. rewrite Hv. simpl.
    assert (Hk : Dict.get k acc = None).
    { apply get_none_iff. intros Hin.
      apply NoDup_remove_2 in Hnd. apply Hnd, in_or_app. now left. }
    rewrite (set_fresh _ _ _ Hk), IH.
    + now rewrite <- app_assoc.
    + unfold Dict.keys in *. rewrite map_app, <- app_assoc. exact Hnd.
Qed.

Lemma get_combine_keys {A B : Type} (R : string * A -> B -> Prop)
    (items : list (string * A)) (results : list B) k v :
  Forall2 R items results ->
  Dict.get k items = Some v ->
  exists r, R (k, v) r /\ Dict.get k (combine (Dict.keys items) results) = Some r.
Proof.
  induction 1 as [|[k' v'] r items results Hr _ IH]; simpl; [discriminate|].
  destruct (String.eqb k k') eqn:E.
  - apply String.eqb_eq in E. subst k'. intros [= <-]. eauto.
  - auto.
Qed.

Lemma keys_combine {A B : Type} (R : string * A -> B -> Prop)
    (items : list (string * A)) (results : list B) :
  Forall2 R items results ->
  Dict.keys (combine (Dict.keys items) results) = Dict.keys items.
Proof.
  induction 1 as [|[k' v'] r items results _ _ IH]; simpl; [reflexivity|].
  now f_equal.
Qed.

(** What the pass leaves under each key is what the loop body computes for
    the value that was there, and the keys are those of the input. *)
Lemma specialize_get W rec values out :
  NoDup (Dict.keys values) ->
  specialize W rec values = Ok out ->
  Dict.keys out = Dict.keys values /\
  forall k v, Dict.get k values = Some v ->
              exists v', specialize_value W rec v = Ok v' /\ Dict.get k out = Some v'.
Proof.
  intros Hnd Hs. unfold specialize in Hs.
  apply specialize_loop_ok in Hs; [|exact Hnd].
  destruct Hs as [results [HF ->]]. simpl. split.
  - exact (keys_combine _ _ _ HF).
  - intros k v Hk.
    destruct (get_combine_keys _ _ _ _ _ HF Hk) as [r [Hr Hg]]. eauto.
Qed.

(** ** Sequences and maps keep their shape *)

Lemma list_branch_structure W l l' :
  specialize_list W l = Ok l' ->
  length l' = length l /\ Forall2 same_but_bookkeeping l l'.
Proof.
  intros H. apply specialize_list_ok in H.
  split.
  - symmetry. exact (Forall2_length H).
  - induction H as [|x y l l' Hxy _ IH]; constructor; [|exact IH].
    apply (clear_element_ok W) in Hxy as [-> _].
    apply same_but_bookkeeping_clear_obj.
Qed.

Lemma dict_branch W rec d :
  NoDup (Dict.keys d) ->
  specialize_value W rec (VDict d)
  = Ok (VDict (map (fun kv => (fst kv, clear_if_element W (snd kv))) d)).
Proof.
  intros Hnd. simpl. now rewrite (specialize_dict_map _ _ Hnd).
Qed.

Lemma same_but_bookkeeping_clear_if_element W x :
  same_but_bookkeeping x (clear_if_element W x).
Proof.
  unfold clear_if_element. destruct (is_element W x).
  - apply same_but_bookkeeping_clear_obj.
  - split; reflexivity.
Qed.

Lemma validate_members_ok f l l' :
  validate_members f l = Ok (l', false) -> Forall2 (fun x y => f x = Ok y) l l'.
Proof.
  revert l'. induction l as [|x l IH]; simpl; intros l'.
  - intros [= <-]. constructor.
  - destruct (f x) as [y|e] eqn:Ex.
    + destruct (validate_members f l) as [[ys b]|]; [simpl | discriminate].
      intros [= <- ->]. constructor; auto.
    + destruct (caught_by_pydantic e); [|discriminate].
      destruct (validate_members f l) as [[ys b]|]; discriminate.
Qed.

Lemma validate_items_ok f d acc out :
  NoDup (Dict.keys acc ++ Dict.keys d) ->
  validate_items f d acc = Ok (out, false) ->
  exists ys, Forall2 (fun kv y => f (snd kv) = Ok y) d ys /\
             out = (acc ++ combine (Dict.keys d) ys)%list.
Proof.
  revert acc. induction d as [|[k x] d IH]; intros acc Hnd; simpl.
  - intros [= <-]. exists []. split; [constructor | now rewrite app_nil_r].
  - assert (Hk : Dict.get k acc = None).
    { apply get_none_iff. intros Hin.
      apply NoDup_remove_2 in Hnd. apply Hnd, in_or_app. now left. }
    destruct (f x) as [y|e] eqn:Ex.
    + rewrite (set_fresh _ _ _ Hk). intros H. apply IH in H.
      * destruct H as [ys [HF ->]]. exists (y :: ys).
        split; [now constructor|]. simpl. now rewrite <- app_assoc.
      * unfold Dict.keys in *. rewrite map_app, <- app_assoc. exact Hnd.
    + destruct (caught_by_pydantic e); [|discriminate].
      destruct (validate_items f d acc) as [[ys b]|]; discriminate.
Qed.

(** C8, as the code has it.  Validating a sequence gives one validated
    member per member, in order, and validating a map with unique keys gives
    one validated value per key, in order.  The pass then keeps the keys of
    the aggregate; a sequence field comes out with the same length and with
    its members in the same order, each member keeping its class and every
    attribute but the three bookkeeping ones, which are [None]; a map field
    comes out with the same keys in the same order, each value likewise
    (the three are [None] when it is an element), and a value that is not an
    element is the very value that went in. *)
Theorem specialize_preserves_structure W rec values out :
  NoDup (Dict.keys values) ->
  specialize W rec values = Ok out ->
  (forall t l v, validate_field W rec (TList t) (VList l) = Ok v ->
     exists l', v = VList l' /\
                Forall2 (fun x y => validate_field W rec t x = Ok y) l l') /\
  (forall t d v, NoDup (Dict.keys d) ->
     validate_field W rec (TDict t) (VDict d) = Ok v ->
     exists d', v = VDict d' /\ Dict.keys d' = Dict.keys d /\
       forall kk x, Dict.get kk d = Some x ->
         exists y, validate_field W rec t x = Ok y /\ Dict.get kk d' = Some y) /\
  Dict.keys out = Dict.keys values /\
  (forall k l, Dict.get k values = Some (VList l) ->
     exists l', Dict.get k out = Some (VList l') /\
                length l' = length l /\
                Forall2 (fun x y => same_but_bookkeeping x y /\ cleared y) l l') /\
  (forall k d, Dict.get k values = Some (VDict d) -> NoDup (Dict.keys d) ->
     exists d', Dict.get k out = Some (VDict d') /\
                Dict.keys d' = Dict.keys d /\
                forall kk x, Dict.get kk d = Some x ->
                  exists y, Dict.get kk d' = Some y /\
                            same_but_bookkeeping x y /\
                            (is_element W x = true -> cleared y) /\
                            (is_element W x = false -> y = x)).
Proof.
  intros Hnd Hs. destruct (specialize_get _ _ _ _ Hnd Hs) as [Hkeys Hget].
  split; [|split; [|split; [exact Hkeys | split]]].
  - intros t l v. simpl. unfold collected.
    destruct (validate_members (validate_field W rec t) l) as [[l' b]|] eqn:E;
      [simpl | discriminate].
    destruct b; [discriminate|]. intros [= <-]. exists l'. split; [reflexivity|].
    now apply validate_members_ok.
  - intros t d v Hd. simpl. unfold collected.
    destruct (validate_items (validate_field W rec t) d []) as [[d' b]|] eqn:E;
      [simpl | discriminate].
    destruct b; [discriminate|]. intros [= <-].
    apply validate_items_ok in E; [|exact Hd]. destruct E as [ys [HF ->]].
    eexists. split; [reflexivity|]. simpl. split.
    + exact (keys_combine _ _ _ HF).
    + intros kk x Hx.
      destruct (get_combine_keys _ _ _ _ _ HF Hx) as [y [Hy Hg]]. eauto.
  - intros k l Hk. destruct (Hget _ _ Hk) as [v' [Hv Hout]].
    simpl in Hv. destruct (specialize_list W l) as [l'|] eqn:El; [|discriminate].
    injection Hv as <-. exists l'. split; [exact Hout|].
    split; [now apply (list_branch_structure W)|].
    apply specialize_list_ok in El. clear - El.
    induction El as [|x y l l' Hxy _ IH]; constructor; [|exact IH].
    apply (clear_element_ok W) in Hxy as [-> [c [fs ->]]].
    split; [apply same_but_bookkeeping_clear_obj | apply cleared_clear_obj].
  - intros k d Hk Hd. destruct (Hget _ _ Hk) as [v' [Hv Hout]].
    rewrite (dict_branch _ _ _ Hd) in Hv. injection Hv as <-.
    eexists. split; [exact Hout|]. split; [apply keys_map_values|].
    intros kk x Hx. rewrite get_map_values, Hx. simpl.
    eexists. split; [reflexivity|]. split; [|split].
    + apply same_but_bookkeeping_clear_if_element.
    + intros He. unfold clear_if_element. rewrite He.
      destruct x; try discriminate. apply cleared_clear_obj.
    + intros Hne. unfold clear_if_element. now rewrite Hne.
Qed.

Lemma specialize_preserves_structure_witness :
  (forall t l v,
     validate_field TestWorld.world (construct TestWorld.world 2) (TList t) (VList l)
       = Ok v ->
     exists l', v = VList l' /\
       Forall2 (fun x y =>
                  validate_field TestWorld.world (construct TestWorld.world 2) t x
                  = Ok y) l l') /\
  (forall t d v, NoDup (Dict.keys d) ->
     validate_field TestWorld.world (construct TestWorld.world 2) (TDict t) (VDict d)
       = Ok v ->
     exists d', v = VDict d' /\ Dict.keys d' = Dict.keys d /\
       forall kk x, Dict.get kk d = Some x ->
         exists y,
           validate_field TestWorld.world (construct TestWorld.world 2) t x = Ok y /\
           Dict.get kk d' = Some y) /\
  Dict.keys TestWorld.mixed_result = Dict.keys TestWorld.mixed_values /\
  (forall k l, Dict.get k TestWorld.mixed_values = Some (VList l) ->
     exists l', Dict.get k TestWorld.mixed_result = Some (VList l') /\
                length l' = length l /\
                Forall2 (fun x y => same_but_bookkeeping x y /\ cleared y) l l') /\
  (forall k d, Dict.get k TestWorld.mixed_values = Some (VDict d) ->
     NoDup (Dict.keys d) ->
     exists d', Dict.get k TestWorld.mixed_result = Some (VDict d') /\
                Dict.keys d' = Dict.keys d /\
                forall kk x, Dict.get kk d = Some x ->
                  exists y, Dict.get kk d' = Some y /\
                            same_but_bookkeeping x y /\
                            (is_element TestWorld.world x = true -> cleared y) /\
                            (is_element TestWorld.world x = false -> y = x)).
Proof.
  apply (specialize_preserves_structure TestWorld.world
           (construct TestWorld.world 2) TestWorld.mixed_values TestWorld.mixed_result).
  - repeat constructor; simpl; intuition discriminate.
  - reflexivity.
Defined.

(** C8, as the specification words it, fails.  [ContainerList] declares
    [items: List[Item1]]; two members whose identifier names [Item2] and
    that differ in the value of [arg2] are both constructed as an [Item1],
    which has no [arg2]: the value is held by [kwargs] alone, and the pass
    sets [kwargs] to [None].  The two members come out equal. *)
Lemma members_lose_their_own_values :
  exists x1 x2 y,
    Dict.get "items" TestWorld.two_item2_cfg = Some (VList [VDict x1; VDict x2]) /\
    Dict.get "arg2" x1 = Some (VStr "b1") /\
    Dict.get "arg2" x2 = Some (VStr "b2") /\
    construct TestWorld.world 3 TestWorld.ContainerList TestWorld.two_item2_cfg
      = Ok (VObj TestWorld.ContainerList [("items", VList [y; y])]) /\
    class_of y = Some TestWorld.Item1 /\
    attr_of "arg2" y = None /\
    attr_of "kwargs" y = Some VNone.
Proof.
  do 3 eexists. repeat split; reflexivity.
Qed.

(** ** The frame of the dict branch *)

(** C10. For a map field the pass visits, a value that is an element comes
    out with [class_path], [base_class] and [kwargs] set to [None] and with
    its class and every other attribute as before; a value that is not an
    element comes out equal to what went in. *)
Theorem specialize_dict_frame W rec values out k d :
  NoDup (Dict.keys values) ->
  NoDup (Dict.keys d) ->
  Dict.get k values = Some (VDict d) ->
  specialize W rec values = Ok out ->
  exists d',
    specialize_value W rec (VDict d) = Ok (VDict d') /\
    Dict.get k out = Some (VDict d') /\
    forall kk x, Dict.get kk d = Some x ->
      exists y, Dict.get kk d' = Some y /\
        (is_element W x = false -> y = x) /\
        (is_element W x = true -> cleared y /\ same_but_bookkeeping x y).
Proof.
  intros Hnd Hd Hk Hs. destruct (specialize_get _ _ _ _ Hnd Hs) as [_ Hget].
  destruct (Hget _ _ Hk) as [v' [Hv Hout]].
  rewrite (dict_branch _ _ _ Hd) in Hv. injection Hv as <-.
  eexists. split; [now apply dict_branch|]. split; [exact Hout|].
  intros kk x Hx. rewrite get_map_values, Hx. simpl.
  eexists. split; [reflexivity|].
  unfold clear_if_element. split; intros E; rewrite E; [reflexivity|].
  split.
  - destruct x; try discriminate. apply cleared_clear_obj.
  - apply same_but_bookkeeping_clear_obj.
Qed.

Lemma specialize_dict_frame_witness :
  exists d',
    specialize_value TestWorld.world (construct TestWorld.world 2)
      (VDict [ ("a", TestWorld.first_pass "p_test.Item" "arg1.1");
               ("b", TestWorld.first_pass "p_test.Item" "arg1.2") ])
    = Ok (VDict d') /\
    Dict.get "items" TestWorld.dict_result = Some (VDict d') /\
    forall kk x,
      Dict.get kk [ ("a", TestWorld.first_pass "p_test.Item" "arg1.1");
                    ("b", TestWorld.first_pass "p_test.Item" "arg1.2") ] = Some x ->
      exists y, Dict.get kk d' = Some y /\
        (is_element TestWorld.world x = false -> y = x) /\
        (is_element TestWorld.world x = true ->
         cleared y /\ same_but_bookkeeping x y).
Proof.
  apply (specialize_dict_frame TestWorld.world (construct TestWorld.world 2)
           TestWorld.dict_values TestWorld.dict_result "items").
  - repeat constructor. simpl. tauto.
  - repeat constructor; simpl; intuition discriminate.
  - reflexivity.
  - reflexivity.
Defined.

(** ** A sequence of plain values *)

(** C6 does not hold of the code.  [Tagged] declares [tags: List[str]]; the
    list branch assigns [class_path] on the string and the construction ends
    with an [AttributeError].  The dict branch, which tests the value first,
    lets the same string through. *)
Theorem sequence_of_plain_values_raises :
  specialize TestWorld.world (construct TestWorld.world 2)
    [("tags", VList [VStr "a"])]
  = Raise (AttributeError "'str' object has no attribute 'class_path'") /\
  construct TestWorld.world 3 TestWorld.Tagged [("tags", VList [VStr "a"])]
  = Raise (AttributeError "'str' object has no attribute 'class_path'") /\
  specialize TestWorld.world (construct TestWorld.world 2)
    [("tags", VDict [("t", VStr "a")])]
  = Ok [("tags", VDict [("t", VStr "a")])].
Proof.
  repeat split; reflexivity.
Qed.

(** ** The loop over the declared fields *)

Lemma validate_one_get_other W rec f data values values' err k :
  validate_one W rec f data values = Ok (values', err) ->
  k <> f_name f ->
  Dict.get k values' = Dict.get k values.
Proof.
  unfold validate_one. intros H Hk.
  destruct (Dict.get (f_name f) data) as [v|].
  - destruct (validate_field W rec (f_type f) v) as [v'|e].
    + injection H as <- _. now apply get_set_other.
    + destruct (caught_by_pydantic e); [|discriminate]. now injection H as <- _.
  - destruct (f_default f).
    + injection H as <- _. now apply get_set_other.
    + now injection H as <- _.
Qed.

Lemma validate_one_NoDup W rec f data values values' err :
  validate_one W rec f data values = Ok (values', err) ->
  NoDup (Dict.keys values) -> NoDup (Dict.keys values').
Proof.
  unfold validate_one. intros H Hnd.
  destruct (Dict.get (f_name f) data) as [v|].
  - destruct (validate_field W rec (f_type f) v) as [v'|e].
    + injection H as <- _. now apply NoDup_keys_set.
    + destruct (caught_by_pydantic e); [|discriminate]. now injection H as <- _.
  - destruct (f_default f).
    + injection H as <- _. now apply NoDup_keys_set.
    + now injection H as <- _.
Qed.

Lemma validate_fields_cons W rec f fields data values out errs :
  validate_fields W rec (f :: fields) data values = Ok (out, errs) ->
  exists values' e1 e2,
    validate_one W rec f data values = Ok (values', e1) /\
    validate_fields W rec fields data values' = Ok (out, e2) /\
    errs = e1 || e2.
Proof.
  simpl. destruct (validate_one W rec f data values) as [[values' e1]|];
    [simpl | discriminate].
  destruct (validate_fields W rec fields data values') as [[out' e2]|] eqn:E;
    [simpl | discriminate].
  intros [= <- <-]. now exists values', e1, e2.
Qed.

Lemma validate_fields_NoDup W rec fields data values out errs :
  validate_fields W rec fields data values = Ok (out, errs) ->
  NoDup (Dict.keys values) -> NoDup (Dict.keys out).
Proof.
  revert values errs. induction fields as [|f fields IH]; intros values errs.
  - simpl. now intros [= <- _].
  - intros H Hnd. apply validate_fields_cons in H as [v' [e1 [e2 [H1 [H2 _]]]]].
    eapply IH; [exact H2|]. eapply validate_one_NoDup; eassumption.
Qed.

(** The value a field name ends with, when every field of that name stores
    [x]. *)
Lemma validate_fields_get W rec fields data values out errs k x :
  validate_fields W rec fields data values = Ok (out, errs) ->
  (forall f values0, In f fields -> f_name f = k ->
     validate_one W rec f data values0 = Ok (Dict.set k x values0, false)) ->
  Dict.get k values = Some x \/ (exists f, In f fields /\ f_name f = k) ->
  Dict.get k out = Some x.
Proof.
  revert values errs. induction fields as [|f fields IH]; intros values errs H Hk Hor.
  - simpl in H. injection H as <- _.
    destruct Hor as [Hg | [f [[] _]]]. exact Hg.
  - apply validate_fields_cons in H as [v' [e1 [e2 [H1 [H2 _]]]]].
    apply (IH _ _ H2).
    + intros f0 values0 Hin. apply Hk. now right.
    + destruct (String.eqb (f_name f) k) eqn:E.
      * apply String.eqb_eq in E.
        rewrite (Hk f values (or_introl eq_refl) E) in H1.
        injection H1 as <- _. left. apply get_set_same.
      * apply String.eqb_neq in E.
        destruct Hor as [Hg | [f0 [[<- | Hin] Hn]]].
        -- left. rewrite (validate_one_get_other _ _ _ _ _ _ _ _ H1); auto.
        -- contradiction.
        -- right. eauto.
Qed.

Lemma construct_class W depth c data o :
  construct W depth c data = Ok o -> exists fs, o = VObj c fs.
Proof.
  destruct depth as [|depth]; [discriminate|]. simpl. unfold validate_model.
  destruct (pre_root W c data) as [input|e]; [|now destruct (caught_by_pydantic e)].
  destruct (validate_fields W (construct W depth) (model_fields W c) input [])
    as [[values errs]|]; [simpl | discriminate].
  destruct (post_root W (construct W depth) c values) as [out|e];
    [|now destruct (caught_by_pydantic e)].
  destruct errs; [discriminate|]. intros [= <-]. eauto.
Qed.

(** What a successful construction went through. *)
Lemma construct_ok_inv W depth c data o :
  construct W depth c data = Ok o ->
  exists depth' input values out,
    depth = S depth' /\
    pre_root W c data = Ok input /\
    validate_fields W (construct W depth') (model_fields W c) input []
      = Ok (values, false) /\
    post_root W (construct W depth') c values = Ok out /\
    o = VObj c out.
Proof.
  destruct depth as [|depth]; [discriminate|]. simpl. unfold validate_model.
  destruct (pre_root W c data) as [input|e]; [|now destruct (caught_by_pydantic e)].
  destruct (validate_fields W (construct W depth) (model_fields W c) input [])
    as [[values errs]|] eqn:Ev; [simpl | discriminate].
  destruct (post_root W (construct W depth) c values) as [out|e] eqn:Ep;
    [|now destruct (caught_by_pydantic e)].
  destruct errs; [discriminate|]. intros [= <-].
  now exists depth, input, values, out.
Qed.

Lemma no_shadow_spec W c f name :
  no_shadow W c = true -> In f (c_fields (w_class W c)) ->
  str_in name bookkeeping = true -> f_name f <> name.
Proof.
  unfold no_shadow. intros H Hin Hname Heq. subst name.
  rewrite forallb_forall in H. specialize (H f Hin).
  now rewrite Hname in H.
Qed.

Lemma post_root_element W rec c values :
  derives W c BaseElementCfg = true ->
  post_root W rec c values = specialize W rec values.
Proof.
  intros H. unfold post_root. rewrite H. now rewrite orb_true_r.
Qed.

(** An attribute that is a scalar before the pass is the same after it. *)
Lemma specialize_keeps_scalar W rec values out k v :
  NoDup (Dict.keys values) ->
  specialize W rec values = Ok out ->
  Dict.get k values = Some v ->
  (v = VNone \/ exists s, v = VStr s) ->
  Dict.get k out = Some v.
Proof.
  intros Hnd Hs Hk Hv. destruct (specialize_get _ _ _ _ Hnd Hs) as [_ Hget].
  destruct (Hget _ _ Hk) as [v' [Hv' Hout]].
  destruct Hv as [-> | [s ->]]; simpl in Hv'; now injection Hv' as <-.
Qed.

(** ** The second construction leaves the bookkeeping attributes empty *)

Lemma has_set {A : Type} k k' (v : A) d :
  Dict.has k (Dict.set k' v d) = String.eqb k k' || Dict.has k d.
Proof.
  unfold Dict.has. destruct (String.eqb k k') eqn:E.
  - apply String.eqb_eq in E. subst. now rewrite get_set_same.
  - apply String.eqb_neq in E. now rewrite (get_set_other _ _ _ _ E).
Qed.

Lemma has_fold_set (kwargs init : dict) k :
  Dict.has k (fold_left (fun acc kv => Dict.set (fst kv) (snd kv) acc) kwargs init)
  = Dict.has k kwargs || Dict.has k init.
Proof.
  revert init. induction kwargs as [|[k0 v0] kw IH]; intros init; simpl.
  - reflexivity.
  - rewrite IH, has_set. unfold Dict.has at 3. simpl.
    destruct (String.eqb k k0); simpl.
    + apply orb_true_r.
    + reflexivity.
Qed.

Lemma has_specialize_args cls kwargs k :
  Dict.has k (specialize_args cls kwargs)
  = String.eqb k "base_class" || (Dict.has k kwargs || String.eqb k "class_path").
Proof.
  unfold specialize_args. rewrite has_set, has_fold_set. f_equal. f_equal.
  unfold Dict.has. simpl. now destruct (String.eqb k "class_path").
Qed.

Lemma args_to_kwargs_second cls kwargs :
  args_to_kwargs (specialize_args cls kwargs)
  = Ok (Dict.del "class_path" (Dict.del "base_class" (specialize_args cls kwargs))).
Proof.
  unfold args_to_kwargs. rewrite !has_specialize_args. simpl.
  now rewrite orb_true_r.
Qed.

Lemma validate_one_default W rec f data values dflt :
  Dict.get (f_name f) data = None ->
  f_default f = Some dflt ->
  validate_one W rec f data values = Ok (Dict.set (f_name f) dflt values, false).
Proof.
  intros Hg Hd. unfold validate_one. now rewrite Hg, Hd.
Qed.

Lemma element_default W rec cls input values errs name :
  derives W cls BaseElementCfg = true ->
  no_shadow W cls = true ->
  str_in name bookkeeping = true ->
  Dict.get name input = None ->
  validate_fields W rec (model_fields W cls) input [] = Ok (values, errs) ->
  Dict.get name values = Some VNone.
Proof.
  intros Hel Hns Hname Hg Hv. rewrite (model_fields_element _ _ Hel) in Hv.
  apply (validate_fields_get _ _ _ _ _ _ _ name VNone Hv).
  - intros f values0 Hin Hf. apply in_app_or in Hin as [Hin | Hin].
    + subst name. simpl in Hin.
      destruct Hin as [<- | [<- | [<- | []]]];
        now apply validate_one_default.
    + exfalso. exact (no_shadow_spec _ _ _ _ Hns Hin Hname Hf).
  - right. unfold str_in, bookkeeping in Hname. simpl in Hname.
    destruct (String.eqb name "class_path") eqn:E1.
    { apply String.eqb_eq in E1. subst.
      exists (Field "class_path" (TOptional TStr) (Some VNone)).
      split; [|reflexivity]. apply in_or_app. left. simpl. auto. }
    destruct (String.eqb name "base_class") eqn:E2.
    { apply String.eqb_eq in E2. subst.
      exists (Field "base_class" (TOptional TBool) (Some VNone)).
      split; [|reflexivity]. apply in_or_app. left. simpl. auto. }
    destruct (String.eqb name "kwargs") eqn:E3; [|discriminate].
    apply String.eqb_eq in E3. subst.
    exists (Field "kwargs" (TOptional (TDict TAny)) (Some VNone)).
    split; [|reflexivity]. apply in_or_app. left. simpl. auto.
Qed.

Lemma second_pass_attrs W depth cls kwargs o :
  derives W cls BaseElementCfg = true ->
  no_shadow W cls = true ->
  construct W depth cls (specialize_args cls kwargs) = Ok o ->
  attr_of "class_path" o = Some VNone /\
  attr_of "base_class" o = Some VNone /\
  (Dict.has "kwargs" kwargs = false -> attr_of "kwargs" o = Some VNone).
Proof.
  intros Hel Hns Hc.
  apply construct_ok_inv in Hc
    as [depth' [input [values [out [-> [Hpre [Hval [Hpost ->]]]]]]]].
  unfold pre_root in Hpre. rewrite Hel, args_to_kwargs_second in Hpre.
  injection Hpre as <-.
  rewrite (post_root_element _ _ _ _ Hel) in Hpost.
  assert (Hnd : NoDup (Dict.keys values)).
  { eapply validate_fields_NoDup; [exact Hval | constructor]. }
  assert (Hkeep : forall name, str_in name bookkeeping = true ->
            Dict.get name
              (Dict.del "class_path"
                 (Dict.del "base_class" (specialize_args cls kwargs))) = None ->
            Dict.get name out = Some VNone).
  { intros name Hname Hg.
    eapply specialize_keeps_scalar; [exact Hnd | exact Hpost | | now left].
    eapply element_default; eassumption. }
  simpl. repeat split.
  - apply Hkeep; [reflexivity | apply get_del_same].
  - apply Hkeep; [reflexivity|].
    rewrite get_del_other by discriminate. apply get_del_same.
  - intros Hkw. apply Hkeep; [reflexivity|].
    rewrite !get_del_other by discriminate.
    apply has_false_iff. rewrite has_specialize_args, Hkw. reflexivity.
Qed.

Lemma specialize_field_ok_inv W rec c fs o :
  specialize_field W rec (VObj c fs) = Ok o ->
  exists class_path cls kwargs,
    Dict.get "class_path" fs = Some (VStr class_path) /\
    class_from_name W class_path = Ok (AClass cls) /\
    class_in c (getmro W cls) = true /\
    Dict.get "kwargs" fs = Some (VDict kwargs) /\
    rec cls (specialize_args cls kwargs) = Ok o.
Proof.
  unfold specialize_field.
  destruct (Dict.get "class_path" fs) as [[| |p| | |]|]; try discriminate.
  destruct (class_from_name W p) as [[cls|]|] eqn:Hcls; try discriminate.
  unfold bind.
  destruct (class_in c (getmro W cls)) eqn:Hmro; [|discriminate].
  cbv beta iota delta [negb].
  destruct (Dict.get "kwargs" fs) as [[| | | |kw|]|]; try discriminate.
  intros H. now exists p, cls, kw.
Qed.

(** ** Dumping *)

Lemma dumped_attr_absent c fs name :
  Dict.get name fs = None -> dumped_attr name (VObj c fs) = None.
Proof.
  unfold dumped_attr. simpl.
  induction fs as [|[k x] fs IH]; simpl; [reflexivity|].
  destruct (String.eqb name k) eqn:E; [discriminate|].
  intros H. destruct x; simpl; rewrite ?E; auto.
Qed.

(** An attribute that is [None] is not in the dump. *)
Lemma dumped_attr_none c fs name :
  NoDup (Dict.keys fs) ->
  Dict.get name fs = Some VNone -> dumped_attr name (VObj c fs) = None.
Proof.
  unfold dumped_attr. simpl.
  induction fs as [|[k x] fs IH]; simpl; [discriminate|].
  intros Hnd. inversion Hnd as [|? ? Hnot Hnd']; subst.
  destruct (String.eqb name k) eqn:E.
  - intros [= ->]. apply String.eqb_eq in E. subst k.
    apply get_none_iff in Hnot.
    exact (dumped_attr_absent c fs name Hnot).
  - intros H. destruct x; simpl; rewrite ?E; auto.
Qed.

(** Any other attribute is in the dump, dumped. *)
Lemma dumped_attr_some c fs name x :
  Dict.get name fs = Some x -> x <> VNone ->
  dumped_attr name (VObj c fs) = Some (dump x).
Proof.
  unfold dumped_attr. simpl. intros Hg Hx.
  induction fs as [|[k y] fs IH]; simpl in *; [discriminate|].
  destruct (String.eqb name k) eqn:E.
  - injection Hg as ->. destruct x; try contradiction; simpl; now rewrite E.
  - destruct y; simpl; rewrite ?E; auto.
Qed.

(** ** What the pass clears *)

Lemma list_branch_cleared W l l' :
  specialize_list W l = Ok l' -> Forall cleared l'.
Proof.
  intros H. apply specialize_list_ok in H.
  induction H as [|x y l l' Hxy _ IH]; constructor; [|exact IH].
  apply (clear_element_ok W) in Hxy as [-> [c [fs ->]]].
  apply cleared_clear_obj.
Qed.

(** C2, as the code has it.  When the pass over the values of an aggregate
    returns: every direct member of a sequence field has [class_path],
    [base_class] and [kwargs] set to [None]; so has every direct value of a
    map field (one with unique keys) that is an element; a field that held
    an element directly holds what [specialize_field] returned for it, and
    when that is an object of an element class that does not redeclare the
    three fields, its [class_path] and [base_class] are [None], and its
    [kwargs] is [None] when the payload has no key ["kwargs"]; and the dump
    of an object leaves out an attribute that is [None] and shows every
    other one. *)
Theorem specialize_clears_direct_elements W depth values out :
  NoDup (Dict.keys values) ->
  specialize W (construct W depth) values = Ok out ->
  (forall k l, Dict.get k values = Some (VList l) ->
     exists l', Dict.get k out = Some (VList l') /\ Forall cleared l') /\
  (forall k d, Dict.get k values = Some (VDict d) -> NoDup (Dict.keys d) ->
     exists d', Dict.get k out = Some (VDict d') /\
       forall kk y, Dict.get kk d' = Some y -> is_element W y = true -> cleared y) /\
  (forall k c fs, Dict.get k values = Some (VObj c fs) ->
     derives W c BaseElementCfg = true ->
     exists o, specialize_field W (construct W depth) (VObj c fs) = Ok o /\
       Dict.get k out = Some o /\
       forall cls, class_of o = Some cls ->
         derives W cls BaseElementCfg = true -> no_shadow W cls = true ->
         attr_of "class_path" o = Some VNone /\
         attr_of "base_class" o = Some VNone /\
         forall kwargs, Dict.get "kwargs" fs = Some (VDict kwargs) ->
           Dict.has "kwargs" kwargs = false -> attr_of "kwargs" o = Some VNone) /\
  (forall c fs name, NoDup (Dict.keys fs) ->
     attr_of name (VObj c fs) = Some VNone -> dumped_attr name (VObj c fs) = None) /\
  (forall c fs name x, attr_of name (VObj c fs) = Some x -> x <> VNone ->
     dumped_attr name (VObj c fs) = Some (dump x)).
Proof.
  intros Hnd Hs. destruct (specialize_get _ _ _ _ Hnd Hs) as [_ Hget].
  split; [|split; [|split; [|split]]].
  - intros k l Hk. destruct (Hget _ _ Hk) as [v' [Hv Hout]].
    simpl in Hv. destruct (specialize_list W l) as [l'|] eqn:El; [|discriminate].
    injection Hv as <-. exists l'. split; [exact Hout|].
    now apply (list_branch_cleared W l).
  - intros k d Hk Hd. destruct (Hget _ _ Hk) as [v' [Hv Hout]].
    rewrite (dict_branch _ _ _ Hd) in Hv. injection Hv as <-.
    eexists. split; [exact Hout|].
    intros kk y Hy Hel. rewrite get_map_values in Hy.
    destruct (Dict.get kk d) as [x|]; [|discriminate].
    injection Hy as <-. unfold clear_if_element in *.
    destruct (is_element W x) eqn:Ex; [|congruence].
    destruct x; try discriminate. apply cleared_clear_obj.
  - intros k c fs Hk Hc. destruct (Hget _ _ Hk) as [o [Hv Hout]].
    unfold specialize_value, is_element in Hv. rewrite Hc in Hv.
    exists o. split; [exact Hv|]. split; [exact Hout|].
    intros cls Hcls Hel Hns.
    apply specialize_field_ok_inv in Hv
      as [class_path [cls0 [kw [Hp [Hres [Hmro [Hkw Hcons]]]]]]].
    destruct (construct_class _ _ _ _ _ Hcons) as [fs0 ->].
    injection Hcls as ->.
    destruct (second_pass_attrs _ _ _ _ _ Hel Hns Hcons) as [H1 [H2 H3]].
    split; [exact H1|]. split; [exact H2|].
    intros kwargs Hkw'. rewrite Hkw in Hkw'. injection Hkw' as <-. exact H3.
  - intros c fs name Hfs Hattr. now apply dumped_attr_none.
  - intros c fs name x Hattr Hx. now apply dumped_attr_some.
Qed.

Lemma specialize_clears_direct_elements_witness :
  (forall k l, Dict.get k TestWorld.mixed_values = Some (VList l) ->
     exists l', Dict.get k TestWorld.mixed_result = Some (VList l') /\
                Forall cleared l') /\
  (forall k d, Dict.get k TestWorld.mixed_values = Some (VDict d) ->
     NoDup (Dict.keys d) ->
     exists d', Dict.get k TestWorld.mixed_result = Some (VDict d') /\
       forall kk y, Dict.get kk d' = Some y ->
                    is_element TestWorld.world y = true -> cleared y) /\
  (forall k c fs, Dict.get k TestWorld.mixed_values = Some (VObj c fs) ->
     derives TestWorld.world c BaseElementCfg = true ->
     exists o,
       specialize_field TestWorld.world (construct TestWorld.world 2) (VObj c fs)
         = Ok o /\
       Dict.get k TestWorld.mixed_result = Some o /\
       forall cls, class_of o = Some cls ->
         derives TestWorld.world cls BaseElementCfg = true ->
         no_shadow TestWorld.world cls = true ->
         attr_of "class_path" o = Some VNone /\
         attr_of "base_class" o = Some VNone /\
         forall kwargs, Dict.get "kwargs" fs = Some (VDict kwargs) ->
           Dict.has "kwargs" kwargs = false -> attr_of "kwargs" o = Some VNone) /\
  (forall c fs name, NoDup (Dict.keys fs) ->
     attr_of name (VObj c fs) = Some VNone -> dumped_attr name (VObj c fs) = None) /\
  (forall c fs name x, attr_of name (VObj c fs) = Some x -> x <> VNone ->
     dumped_attr name (VObj c fs) = Some (dump x)).
Proof.
  apply (specialize_clears_direct_elements TestWorld.world 2
           TestWorld.mixed_values TestWorld.mixed_result).
  - repeat constructor; simpl; intuition discriminate.
  - reflexivity.
Defined.

(** C2, as the specification words it, fails.  [Grouped] declares
    [groups: Dict[str, Dict[str, Item1]]]; the pass looks at the values of
    the outer map only, so the element in the inner map is reachable from
    the finished aggregate with its identifier and payload in place, and the
    dump shows them. *)
Lemma nested_element_keeps_bookkeeping :
  exists out e,
    construct TestWorld.world 3 TestWorld.Grouped TestWorld.grouped_cfg = Ok out /\
    reachable out e /\
    is_element TestWorld.world e = true /\
    attr_of "class_path" e = Some (VStr "base_config_test.Item1") /\
    attr_of "kwargs" e = Some (VDict [("arg1", VStr "x")]) /\
    dumped_attr "class_path" e = Some (VStr "base_config_test.Item1") /\
    ~ cleared e.
Proof.
  eexists. eexists. split; [reflexivity|].
  split.
  { eapply R_attribute; [left; reflexivity|].
    eapply R_map_value; [left; reflexivity|].
    eapply R_map_value; [left; reflexivity|].
    apply R_here. }
  repeat split; try reflexivity.
  intros [H _]. discriminate H.
Qed.

(** ** The first construction keeps the identifier and captures the payload *)

Lemma validate_items_any f d acc :
  (forall x, f x = Ok x) ->
  validate_items f d acc
  = Ok (fold_left (fun acc kv => Dict.set (fst kv) (snd kv) acc) d acc, false).
Proof.
  intros Hf. revert acc.
  induction d as [|[k x] d IH]; intros acc; simpl; [reflexivity|].
  rewrite Hf. apply IH.
Qed.

Lemma fold_set_id (d acc : dict) :
  NoDup (Dict.keys acc ++ Dict.keys d) ->
  fold_left (fun acc kv => Dict.set (fst kv) (snd kv) acc) d acc = (acc ++ d)%list.
Proof.
  intros Hnd.
  rewrite (fold_set_fresh (fun v : value => v) d acc Hnd). f_equal.
  induction d as [|[k x] d IH]; simpl; [reflexivity|]. f_equal.
  apply IH. simpl in Hnd. now apply NoDup_remove_1 in Hnd.
Qed.

Lemma validate_payload W rec d :
  NoDup (Dict.keys d) ->
  validate_field W rec (TOptional (TDict TAny)) (VDict d) = Ok (VDict d).
Proof.
  intros Hnd. simpl. rewrite validate_items_any by reflexivity.
  unfold collected. simpl. now rewrite (fold_set_id d [] Hnd).
Qed.

Lemma plain_items_unchanged W d :
  plain_items W d = true ->
  map (fun kv => (fst kv, clear_if_element W (snd kv))) d = d.
Proof.
  unfold plain_items. induction d as [|[k x] d IH]; simpl; [reflexivity|].
  intros H. apply andb_true_iff in H as [Hx Hd].
  unfold clear_if_element at 1. apply negb_true_iff in Hx. rewrite Hx.
  now rewrite IH.
Qed.

Lemma plain_items_captured W m :
  plain_items W m = true -> plain_items W (captured m) = true.
Proof.
  unfold plain_items, captured. rewrite !forallb_forall.
  intros H kv Hin. apply filter_In in Hin as [Hin _]. now apply H.
Qed.

Lemma args_to_kwargs_first m class_path :
  Dict.get "class_path" m = Some class_path ->
  Dict.has "base_class" m = false ->
  args_to_kwargs m = Ok (Dict.set "kwargs" (VDict (captured m)) m).
Proof.
  intros Hp Hb. unfold args_to_kwargs, Dict.has in *. rewrite Hp. simpl.
  destruct (Dict.get "base_class" m); [discriminate | reflexivity].
Qed.

Lemma first_pass_attrs W depth base m class_path o :
  derives W base BaseElementCfg = true ->
  no_shadow W base = true ->
  NoDup (Dict.keys m) ->
  plain_items W m = true ->
  Dict.get "class_path" m = Some (VStr class_path) ->
  Dict.has "base_class" m = false ->
  construct W depth base m = Ok o ->
  exists fs, o = VObj base fs /\
             Dict.get "class_path" fs = Some (VStr class_path) /\
             Dict.get "kwargs" fs = Some (VDict (captured m)).
Proof.
  intros Hel Hns Hnd Hplain Hp Hb Hc.
  apply construct_ok_inv in Hc
    as [depth' [input [values [out [-> [Hpre [Hval [Hpost ->]]]]]]]].
  unfold pre_root in Hpre. rewrite Hel, (args_to_kwargs_first _ _ Hp Hb) in Hpre.
  injection Hpre as <-.
  rewrite (post_root_element _ _ _ _ Hel) in Hpost.
  assert (Hvnd : NoDup (Dict.keys values)).
  { eapply validate_fields_NoDup; [exact Hval | constructor]. }
  assert (Hcap : NoDup (Dict.keys (captured m))).
  { now apply NoDup_keys_filter. }
  rewrite (model_fields_element _ _ Hel) in Hval.
  assert (H1 : Dict.get "class_path" values = Some (VStr class_path)).
  { apply (validate_fields_get _ _ _ _ _ _ _ _ _ Hval).
    - intros f values0 Hin Hf. apply in_app_or in Hin as [Hin | Hin].
      + simpl in Hin. destruct Hin as [<- | [<- | [<- | []]]]; try discriminate.
        unfold validate_one. simpl f_name.
        rewrite get_set_other by discriminate. now rewrite Hp.
      + exfalso. exact (no_shadow_spec _ _ _ "class_path" Hns Hin eq_refl Hf).
    - right. exists (Field "class_path" (TOptional TStr) (Some VNone)).
      split; [|reflexivity]. apply in_or_app. left. simpl. auto. }
  assert (H2 : Dict.get "kwargs" values = Some (VDict (captured m))).
  { apply (validate_fields_get _ _ _ _ _ _ _ _ _ Hval).
    - intros f values0 Hin Hf. apply in_app_or in Hin as [Hin | Hin].
      + simpl in Hin. destruct Hin as [<- | [<- | [<- | []]]]; try discriminate.
        unfold validate_one. simpl f_name. simpl f_type.
        rewrite get_set_same. now rewrite (validate_payload _ _ _ Hcap).
      + exfalso. exact (no_shadow_spec _ _ _ "kwargs" Hns Hin eq_refl Hf).
    - right. exists (Field "kwargs" (TOptional (TDict TAny)) (Some VNone)).
      split; [|reflexivity]. apply in_or_app. left. simpl. auto. }
  exists out. split; [reflexivity|]. split.
  - eapply specialize_keeps_scalar; [exact Hvnd | exact Hpost | exact H1 | eauto].
  - destruct (specialize_get _ _ _ _ Hvnd Hpost) as [_ Hget].
    destruct (Hget _ _ H2) as [v' [Hv' Hout]].
    rewrite (dict_branch _ _ _ Hcap) in Hv'. injection Hv' as <-.
    rewrite Hout. do 2 f_equal.
    apply plain_items_unchanged. now apply plain_items_captured.
Qed.

(** ** Elements held directly by a field *)

Lemma plain_position_settled W depth d f o :
  plain_position W depth d f o -> settled_field W depth d f o.
Proof.
  intros [base [m [class_path [cls [first H]]]]].
  destruct H as [Ht [Hel [Hns [Hd [Hnd [Hplain [Hp [Hb [H1 [Hcls [Hmro H2]]]]]]]]]]].
  destruct (first_pass_attrs _ _ _ _ _ _ Hel Hns Hnd Hplain Hp Hb H1)
    as [fs [-> [Hcp Hkw]]].
  exists (VObj base fs). split.
  - intros values. unfold validate_one. rewrite Hd, Ht. simpl. now rewrite H1.
  - unfold specialize_value, is_element. rewrite Hel.
    now rewrite (specialize_field_resolved _ _ _ _ _ _ _ Hcp Hcls Hmro Hkw).
Qed.

Lemma settled_fields_validate W depth d fields os acc :
  Forall2 (settled_field W depth d) fields os ->
  NoDup (Dict.keys acc ++ map f_name fields) ->
  exists vs,
    validate_fields W (construct W depth) fields d acc
    = Ok ((acc ++ combine (map f_name fields) vs)%list, false) /\
    Forall2 (fun v o => specialize_value W (construct W depth) v = Ok o) vs os.
Proof.
  intros HF. revert acc.
  induction HF as [|f o fields os Hf _ IH]; intros acc Hnd.
  - exists []. simpl. rewrite app_nil_r. split; [reflexivity | constructor].
  - destruct Hf as [v [Hone Hspec]].
    assert (Hk : Dict.get (f_name f) acc = None).
    { apply get_none_iff. intros Hin. simpl in Hnd.
      apply NoDup_remove_2 in Hnd. apply Hnd, in_or_app. now left. }
    destruct (IH (acc ++ [(f_name f, v)])%list) as [vs [Hv HF']].
    { unfold Dict.keys in *. rewrite map_app, <- app_assoc. exact Hnd. }
    exists (v :: vs). split; [|now constructor].
    simpl. rewrite Hone. simpl. rewrite (set_fresh _ _ _ Hk), Hv. simpl.
    now rewrite <- app_assoc.
Qed.

Lemma Forall2_combine_names {B : Type} (R : value -> B -> Prop)
    (names : list string) (firsts : list value) (os : list B) :
  length names = length firsts ->
  Forall2 R firsts os ->
  Forall2 (fun kv r => R (snd kv) r) (combine names firsts) os /\
  Dict.keys (combine names firsts) = names.
Proof.
  intros Hlen HF. revert names Hlen.
  induction HF as [|x o firsts os Hx _ IH]; intros [|n names] Hlen;
    try discriminate; simpl.
  - split; [constructor | reflexivity].
  - destruct (IH names) as [H1 H2]; [now injection Hlen|].
    split; [now constructor | now f_equal].
Qed.

Lemma plain_position_holds W depth d f o :
  plain_position W depth d f o -> holds_resolved W depth d f o.
Proof.
  intros [base [m [class_path [cls [first H]]]]].
  destruct H as [_ [_ [_ [Hd [_ [_ [Hp [_ [_ [Hcls [_ H2]]]]]]]]]]].
  exists m, class_path, cls. repeat split; try assumption.
  destruct (construct_class _ _ _ _ _ H2) as [fs ->]. reflexivity.
Qed.

(** C1, as the code has it.  Take an aggregate class (a container that is
    not itself an element, with distinct field names) and a document in
    which every field is of one of two kinds.  Either it is declared with an
    element class that does not redeclare the three bookkeeping fields and
    is given a mapping -- with unique keys, no element objects, a string for
    [class_path] and no key [base_class] -- that the declared class accepts
    and whose identifier resolves to a class with the declared one among its
    bases, which in turn accepts the captured payload.  Or it validates and
    passes the normaliser.  Then constructing the aggregate returns, and
    each field of the first kind holds an instance of exactly the resolved
    class, the one constructed from the captured payload. *)
Theorem plain_fields_hold_resolved_subtype W depth c d os :
  derives W c BaseElementCfg = false ->
  derives W c BaseContainerCfg = true ->
  NoDup (map f_name (c_fields (w_class W c))) ->
  Forall2 (fun f o => plain_position W depth d f o \/ settled_field W depth d f o)
          (c_fields (w_class W c)) os ->
  construct W (S depth) c d
  = Ok (VObj c (combine (map f_name (c_fields (w_class W c))) os)) /\
  Forall2 (fun f o => plain_position W depth d f o -> holds_resolved W depth d f o)
          (c_fields (w_class W c)) os.
Proof.
  intros Hne Hc Hnd HF. split.
  - assert (HS : Forall2 (settled_field W depth d) (c_fields (w_class W c)) os).
    { clear Hnd. induction HF as [|f o fields os [Hf | Hf] _ IH]; constructor;
        auto using plain_position_settled. }
    destruct (settled_fields_validate _ _ _ _ _ [] HS Hnd) as [vs [Hv HF']].
    simpl in Hv.
    assert (Hlen : length (map f_name (c_fields (w_class W c))) = length vs).
    { rewrite length_map, (Forall2_length HS). symmetry. exact (Forall2_length HF'). }
    destruct (Forall2_combine_names _ _ _ _ Hlen HF') as [HF'' Hkeys].
    simpl. unfold validate_model, pre_root, model_fields, post_root.
    rewrite Hne, Hc, Hv. simpl. unfold specialize.
    rewrite (specialize_loop_total _ _ _ os []); [| |exact HF''].
    + simpl. now rewrite Hkeys.
    + simpl. now rewrite Hkeys.
  - clear Hnd. induction HF; constructor; auto using plain_position_holds.
Qed.

Lemma plain_fields_hold_resolved_subtype_witness :
  construct TestWorld.world 3 TestWorld.ContainerCfg TestWorld.base_config_args
  = Ok (VObj TestWorld.ContainerCfg
          (combine (map f_name (c_fields (w_class TestWorld.world TestWorld.ContainerCfg)))
                   TestWorld.base_config_result)) /\
  Forall2 (fun f o =>
             plain_position TestWorld.world 2 TestWorld.base_config_args f o ->
             holds_resolved TestWorld.world 2 TestWorld.base_config_args f o)
          (c_fields (w_class TestWorld.world TestWorld.ContainerCfg))
          TestWorld.base_config_result.
Proof.
  apply (plain_fields_hold_resolved_subtype TestWorld.world 2 TestWorld.ContainerCfg
           TestWorld.base_config_args TestWorld.base_config_result).
  - reflexivity.
  - reflexivity.
  - repeat constructor; simpl; intuition discriminate.
  - apply Forall2_cons; [|apply Forall2_cons; [|apply Forall2_nil]].
    + left.
      exists TestWorld.BaseItem, [("class_path", VStr "base_config_test.Item1");
                                  ("arg1", VStr "arg1")],
        "base_config_test.Item1", TestWorld.Item1.
      eexists. repeat split; try reflexivity.
      repeat constructor; simpl; intuition discriminate.
    + left.
      exists TestWorld.BaseItem, [("class_path", VStr "base_config_test.Item2");
                                  ("arg1", VStr "arg1"); ("arg2", VStr "arg2")],
        "base_config_test.Item2", TestWorld.Item2.
      eexists. repeat split; try reflexivity.
      repeat constructor; simpl; intuition discriminate.
Defined.

(** C1, as the specification words it, fails.  [ContainerList] declares
    [items: List[Item1]]; a member whose identifier names [Item2], a class
    properly below [Item1], is constructed as an [Item1]: members of a
    sequence are never handed to [specialize_field], and the field [arg2] of
    the named class is not bound. *)
Lemma sequence_member_keeps_declared_class :
  exists member,
    class_from_name TestWorld.world "base_config_test.Item2"
      = Ok (AClass TestWorld.Item2) /\
    derives TestWorld.world TestWorld.Item2 TestWorld.Item1 = true /\
    cref_eqb TestWorld.Item2 TestWorld.Item1 = false /\
    construct TestWorld.world 3 TestWorld.ContainerList TestWorld.list_of_item2_cfg
      = Ok (VObj TestWorld.ContainerList [("items", VList [member])]) /\
    class_of member = Some TestWorld.Item1 /\
    class_of member <> Some TestWorld.Item2 /\
    attr_of "arg2" member = None.
Proof.
  eexists. repeat split; try reflexivity. discriminate.
Qed.

(** ** The tests of base_config_test.py *)

Example test_base_config :
  construct TestWorld.world 3 TestWorld.ContainerCfg TestWorld.base_config_args
  = Ok (VObj TestWorld.ContainerCfg
          (combine ["item1"; "item2"] TestWorld.base_config_result)).
Proof. reflexivity. Qed.

Example test_missing_class_path :
  construct TestWorld.world 3 TestWorld.ContainerCfg TestWorld.missing_class_path_args
  = Raise MissingTypeIdentifier.
Proof. reflexivity. Qed.

Example test_not_subclass :
  construct TestWorld.world 3 TestWorld.ContainerX TestWorld.not_subclass_args
  = Raise (NotASubclass TestWorld.ItemX TestWorld.BaseItem).
Proof. reflexivity. Qed.

Example test_list :
  construct TestWorld.world 3 TestWorld.ContainerList TestWorld.list_cfg
  = Ok (VObj TestWorld.ContainerList TestWorld.list_result).
Proof. reflexivity. Qed.

(** The identifiers of [test_dict] name a module that does not exist; the
    values of the map are constructed all the same. *)
Example test_dict :
  construct TestWorld.world 3 TestWorld.ContainerDict TestWorld.dict_cfg
  = Ok (VObj TestWorld.ContainerDict TestWorld.dict_result)
  /\ class_from_name TestWorld.world "p_test.Item"
     = Raise (ModuleNotFoundError "p_test").
Proof. split; reflexivity. Qed.

(** A mapping without identifier inside the payload of an element, as the
    second member of a sequence, and as a value of a map. *)
Example missing_in_payload :
  meets_missing TestWorld.world 4 (TModel TestWorld.ContainerX)
    (VDict [("item", TestWorld.item "more_config.Wrapper"
                       [("inner", VDict [("arg1", VStr "arg1")])])]).
Proof.
  eapply (MM_payload TestWorld.world 3 TestWorld.ContainerX _ _ _ _ []
            "item" TestWorld.BaseItem _ "more_config.Wrapper" TestWorld.Wrapper
            [("inner", VDict [("arg1", VStr "arg1")])] []);
    try reflexivity; [constructor|].
  eapply (MM_field TestWorld.world 2 TestWorld.Wrapper _ _ element_fields
            (TestWorld.required "inner" (TModel TestWorld.BaseItem)) []);
    try reflexivity.
  apply MM_element; reflexivity.
Qed.

Example missing_in_sequence :
  meets_missing TestWorld.world 3 (TModel TestWorld.ContainerList)
    (VDict [("items", VList [ TestWorld.item "base_config_test.Item1"
                                [("arg1", VStr "arg1.1")];
                              VDict [("arg1", VStr "arg1.2")] ])]).
Proof.
  eapply (MM_field TestWorld.world 2 TestWorld.ContainerList _ _ []
            (TestWorld.required "items" (TList (TModel TestWorld.Item1))) []);
    try reflexivity.
  apply (MM_member TestWorld.world 2 (TModel TestWorld.Item1)
           [TestWorld.item "base_config_test.Item1" [("arg1", VStr "arg1.1")]]
           (VDict [("arg1", VStr "arg1.2")]) []).
  - repeat constructor.
  - apply MM_element; reflexivity.
Qed.

Example missing_in_map :
  meets_missing TestWorld.world 3 (TModel TestWorld.ContainerDict)
    (VDict [("items", VDict [("a", VDict [("arg1", VStr "arg1.1")])])]).
Proof.
  eapply (MM_field TestWorld.world 2 TestWorld.ContainerDict _ _ []
            (TestWorld.required "items" (TDict (TModel TestWorld.Item1))) []);
    try reflexivity.
  apply (MM_map_value TestWorld.world 2 (TModel TestWorld.Item1) []
           "a" (VDict [("arg1", VStr "arg1.1")]) []).
  - constructor.
  - apply MM_element; reflexivity.
Qed.


(** * Further properties of the code *)

(** ** class_from_name on well-formed identifiers *)

Lemma rsplit_dot_no_dot n : no_dot n = true -> rsplit_dot n = None.
Proof.
  induction n as [|c n IH]; simpl; [reflexivity|].
  intros H. apply andb_true_iff in H as [Hc Hn].
  rewrite (IH Hn). apply negb_true_iff in Hc. now rewrite Hc.
Qed.

Lemma rsplit_dot_app m n :
  no_dot n = true -> rsplit_dot (m ++ "." ++ n) = Some (m, n).
Proof.
  intros Hn. induction m as [|c m IH]; simpl.
  - now rewrite (rsplit_dot_no_dot _ Hn).
  - simpl in IH. now rewrite IH.
Qed.

(** X1. The identifier is split at its last dot: for a class name without a
    dot and a module that can be imported, [class_from_name] on
    ["module.Name"] is the lookup of [Name] in that module, however many
    dots the module part has. *)
Theorem class_from_name_splits_at_last_dot W module_name class_name ns :
  no_dot class_name = true ->
  starts_with_dot module_name = false ->
  module_name <> "" ->
  w_module W module_name = Some ns ->
  class_from_name W (module_name ++ "." ++ class_name) = getattr_module ns class_name.
Proof.
  intros Hn Hrel Hne Hm. unfold class_from_name, split_class_path.
  rewrite (rsplit_dot_app _ _ Hn). unfold import_module.
  apply String.eqb_neq in Hne. now rewrite Hrel, Hne, Hm.
Qed.

Lemma class_from_name_splits_at_last_dot_witness :
  class_from_name TestWorld.world ("py_config.base_config" ++ "." ++ "BaseElementCfg")
  = getattr_module
      [ ("importlib", AOther); ("inspect", AOther); ("Dict", AOther);
        ("Type", AOther); ("Any", AOther); ("Optional", AOther);
        ("List", AOther); ("pydantic", AOther); ("root_validator", AOther);
        ("BaseModel", AClass BaseModel); ("class_from_name", AOther);
        ("BaseContainerCfg", AClass BaseContainerCfg);
        ("BaseElementCfg", AClass BaseElementCfg) ]
      "BaseElementCfg".
Proof.
  apply (class_from_name_splits_at_last_dot TestWorld.world
           "py_config.base_config" "BaseElementCfg").
  - reflexivity.
  - reflexivity.
  - discriminate.
  - reflexivity.
Defined.

(** X2. An identifier without a dot is looked up in the main module (the
    [except ValueError] branch), whatever other modules are loaded. *)
Theorem class_from_name_bare_name_in_main W class_path ns :
  no_dot class_path = true ->
  w_module W "__main__" = Some ns ->
  class_from_name W class_path = getattr_module ns class_path.
Proof.
  intros Hn Hm. unfold class_from_name, split_class_path.
  rewrite (rsplit_dot_no_dot _ Hn). unfold import_module. simpl. now rewrite Hm.
Qed.

Lemma class_from_name_bare_name_in_main_witness :
  class_from_name TestWorld.world "Item1" = getattr_module [] "Item1".
Proof.
  apply (class_from_name_bare_name_in_main TestWorld.world "Item1" []);
    reflexivity.
Defined.

(** ** args_to_kwargs: what is captured, what is handed on *)

Lemma get_del {A : Type} k k' (d : list (string * A)) :
  Dict.get k (Dict.del k' d) = if String.eqb k k' then None else Dict.get k d.
Proof.
  destruct (String.eqb k k') eqn:E.
  - apply String.eqb_eq in E. subst. apply get_del_same.
  - apply String.eqb_neq in E. now apply get_del_other.
Qed.

Lemma get_stripped args k :
  Dict.get k (stripped args)
  = if str_in k ["class_path"; "base_class"] then None else Dict.get k args.
Proof.
  unfold stripped, str_in. simpl. rewrite !get_del.
  destruct (String.eqb k "class_path"); [reflexivity|].
  now destruct (String.eqb k "base_class").
Qed.

(** X3. On a mapping with [class_path] and without [base_class],
    [args_to_kwargs] changes nothing but the key ["kwargs"], which it binds
    to a mapping holding every argument except [class_path] and
    [base_class] -- a ["kwargs"] argument of the document included. *)
Theorem args_to_kwargs_captures values :
  Dict.has "class_path" values = true ->
  Dict.has "base_class" values = false ->
  exists out payload,
    args_to_kwargs values = Ok out /\
    Dict.get "kwargs" out = Some (VDict payload) /\
    (forall k, k <> "kwargs" -> Dict.get k out = Dict.get k values) /\
    (forall k, Dict.get k payload
               = if str_in k ["class_path"; "base_class"] then None
                 else Dict.get k values) /\
    (NoDup (Dict.keys values) -> NoDup (Dict.keys out) /\ NoDup (Dict.keys payload)).
Proof.
  intros Hp Hb. unfold args_to_kwargs. rewrite Hp, Hb. simpl.
  exists (Dict.set "kwargs" (VDict (captured values)) values), (captured values).
  split; [reflexivity|]. split; [apply get_set_same|]. split; [|split].
  - intros k Hk. now apply get_set_other.
  - apply captured_keys.
  - intros Hnd. split; [now apply NoDup_keys_set | now apply NoDup_keys_filter].
Qed.

Lemma args_to_kwargs_captures_witness :
  exists out payload,
    args_to_kwargs [("class_path", VStr "base_config_test.Item1");
                    ("arg1", VStr "arg1"); ("kwargs", VDict [])] = Ok out /\
    Dict.get "kwargs" out = Some (VDict payload) /\
    (forall k, k <> "kwargs" ->
       Dict.get k out
       = Dict.get k [("class_path", VStr "base_config_test.Item1");
                     ("arg1", VStr "arg1"); ("kwargs", VDict [])]) /\
    (forall k, Dict.get k payload
               = if str_in k ["class_path"; "base_class"] then None
                 else Dict.get k [("class_path", VStr "base_config_test.Item1");
                                  ("arg1", VStr "arg1"); ("kwargs", VDict [])]) /\
    (NoDup (Dict.keys [("class_path", VStr "base_config_test.Item1");
                       ("arg1", VStr "arg1"); ("kwargs", VDict [])]) ->
     NoDup (Dict.keys out) /\ NoDup (Dict.keys payload)).
Proof.
  apply (args_to_kwargs_captures
           [("class_path", VStr "base_config_test.Item1");
            ("arg1", VStr "arg1"); ("kwargs", VDict [])]); reflexivity.
Defined.

(** X4. The arguments [specialize_field] builds go through [args_to_kwargs]
    again when the resolved class is constructed; what comes out is the
    captured payload, key for key: the resolved class validates the
    arguments of the document other than [class_path], and nothing else. *)
Theorem second_construction_sees_the_payload cls values :
  NoDup (Dict.keys values) ->
  exists data,
    args_to_kwargs (specialize_args cls (captured values)) = Ok data /\
    forall k, Dict.get k data
              = if str_in k ["class_path"; "base_class"] then None
                else Dict.get k values.
Proof.
  intros Hnd. exists (stripped (specialize_args cls (captured values))).
  split; [apply args_to_kwargs_second|].
  intros k. rewrite get_stripped.
  destruct (str_in k ["class_path"; "base_class"]) eqn:E; [reflexivity|].
  rewrite get_specialize_args by now apply NoDup_keys_filter.
  rewrite captured_keys, E. unfold str_in in E. simpl in E.
  destruct (String.eqb k "class_path"); [discriminate|].
  destruct (String.eqb k "base_class"); [discriminate|].
  now destruct (Dict.get k values).
Qed.

Lemma second_construction_sees_the_payload_witness :
  exists data,
    args_to_kwargs
      (specialize_args TestWorld.Item1
         (captured [("class_path", VStr "base_config_test.Item1");
                    ("arg1", VStr "arg1")])) = Ok data /\
    forall k, Dict.get k data
              = if str_in k ["class_path"; "base_class"] then None
                else Dict.get k [("class_path", VStr "base_config_test.Item1");
                                 ("arg1", VStr "arg1")].
Proof.
  apply (second_construction_sees_the_payload TestWorld.Item1
           [("class_path", VStr "base_config_test.Item1"); ("arg1", VStr "arg1")]).
  repeat constructor; simpl; intuition discriminate.
Defined.

(** ** An element that has no identifier left *)

Lemma marked_construction_attrs W depth c m o :
  derives W c BaseElementCfg = true ->
  no_shadow W c = true ->
  Dict.has "class_path" m = true ->
  Dict.has "base_class" m = true ->
  construct W depth c m = Ok o ->
  exists fs, o = VObj c fs /\
             Dict.get "class_path" fs = Some VNone /\
             Dict.get "base_class" fs = Some VNone.
Proof.
  intros Hel Hns Hp Hb Hc.
  apply construct_ok_inv in Hc
    as [depth' [input [values [out [-> [Hpre [Hval [Hpost ->]]]]]]]].
  unfold pre_root, args_to_kwargs in Hpre. rewrite Hel, Hp, Hb in Hpre.
  simpl in Hpre. injection Hpre as <-.
  rewrite (post_root_element _ _ _ _ Hel) in Hpost.
  assert (Hnd : NoDup (Dict.keys values)).
  { eapply validate_fields_NoDup; [exact Hval | constructor]. }
  exists out. split; [reflexivity|]. split.
  - eapply specialize_keeps_scalar; [exact Hnd | exact Hpost | | now left].
    eapply element_default; [exact Hel | exact Hns | reflexivity | | exact Hval].
    apply get_del_same.
  - eapply specialize_keeps_scalar; [exact Hnd | exact Hpost | | now left].
    eapply element_default; [exact Hel | exact Hns | reflexivity | | exact Hval].
    rewrite get_del_other by discriminate. apply get_del_same.
Qed.

Lemma specialize_field_without_identifier W rec c fs :
  Dict.get "class_path" fs = Some VNone ->
  specialize_field W rec (VObj c fs)
  = Raise (AttributeError "object has no attribute 'rsplit'").
Proof.
  intros H. unfold specialize_field. now rewrite H.
Qed.

(** X5. The marker is read from the document as well: a mapping that has
    both [class_path] and a key [base_class] (with any value) is taken for a
    second construction by an element class that does not redeclare the
    three fields.  Its identifier is deleted without being resolved, so the
    object that comes out has no [class_path], and the pass of the enclosing
    aggregate, which hands it to [specialize_field], ends with an
    [AttributeError]. *)
Theorem document_marker_defeats_specialization W depth rec c m o :
  derives W c BaseElementCfg = true ->
  no_shadow W c = true ->
  Dict.has "class_path" m = true ->
  Dict.has "base_class" m = true ->
  construct W depth c m = Ok o ->
  class_of o = Some c /\
  attr_of "class_path" o = Some VNone /\
  specialize_value W rec o
  = Raise (AttributeError "object has no attribute 'rsplit'").
Proof.
  intros Hel Hns Hp Hb Hc.
  destruct (marked_construction_attrs _ _ _ _ _ Hel Hns Hp Hb Hc)
    as [fs [-> [H1 _]]].
  split; [reflexivity|]. split; [exact H1|].
  unfold specialize_value, is_element. rewrite Hel.
  now apply specialize_field_without_identifier.
Qed.

Lemma document_marker_defeats_specialization_witness :
  class_of (VObj TestWorld.BaseItem empty_bookkeeping) = Some TestWorld.BaseItem /\
  attr_of "class_path" (VObj TestWorld.BaseItem empty_bookkeeping) = Some VNone /\
  specialize_value TestWorld.world (construct TestWorld.world 2)
    (VObj TestWorld.BaseItem empty_bookkeeping)
  = Raise (AttributeError "object has no attribute 'rsplit'").
Proof.
  apply (document_marker_defeats_specialization TestWorld.world 2
           (construct TestWorld.world 2) TestWorld.BaseItem
           [("class_path", VStr "base_config_test.Item1"); ("base_class", VNone);
            ("arg1", VStr "arg1")]); reflexivity.
Defined.

(** X6. [specialize_field] needs the identifier each time: on an element
    whose [class_path] is [None] -- every element the pass has cleared or
    specialised is one -- it raises an [AttributeError], and so does the
    pass over any values that hold such an element directly in a field,
    once the fields before it are done.  The pass cannot be run twice. *)
Theorem specialized_element_stops_pass W rec before k c fs after :
  derives W c BaseElementCfg = true ->
  Dict.get "class_path" fs = Some VNone ->
  Forall (fun kv => returns (specialize_value W rec (snd kv)) = true) before ->
  specialize W rec (before ++ (k, VObj c fs) :: after)%list
  = Raise (AttributeError "object has no attribute 'rsplit'").
Proof.
  intros Hel Hp Hb. unfold specialize.
  apply specialize_loop_raises; [exact Hb|].
  unfold specialize_value, is_element. rewrite Hel.
  now apply specialize_field_without_identifier.
Qed.

Lemma specialized_element_stops_pass_witness :
  specialize TestWorld.world (construct TestWorld.world 2)
    ([] ++ ("item", VObj TestWorld.Item1
                      (empty_bookkeeping ++ [("arg1", VStr "arg1")]))
        :: [ ("items", VList [TestWorld.cleaned "arg1.1"]) ])%list
  = Raise (AttributeError "object has no attribute 'rsplit'").
Proof.
  apply (specialized_element_stops_pass TestWorld.world
           (construct TestWorld.world 2) [] "item" TestWorld.Item1).
  - reflexivity.
  - reflexivity.
  - constructor.
Defined.

(** ** Plain fields and the list branch *)

Lemma specialize_value_plain W rec v :
  plain_value W v = true -> specialize_value W rec v = Ok v.
Proof.
  unfold plain_value, specialize_value.
  destruct v; try discriminate; intros H; apply negb_true_iff in H; now rewrite H.
Qed.

Lemma combine_keys_values (d : dict) : combine (Dict.keys d) (map snd d) = d.
Proof.
  induction d as [|[k v] d IH]; simpl; [reflexivity|]. now rewrite IH.
Qed.

(** X7. An aggregate whose fields hold no list, no dict and no element
    comes out of the pass as it went in: same keys, same order, same
    values. *)
Theorem plain_aggregate_unchanged W rec values :
  NoDup (Dict.keys values) ->
  forallb (fun kv => plain_value W (snd kv)) values = true ->
  specialize W rec values = Ok values.
Proof.
  intros Hnd Hplain. unfold specialize.
  rewrite (specialize_loop_total W rec values (map snd values) []).
  - simpl. now rewrite combine_keys_values.
  - exact Hnd.
  - rewrite forallb_forall in Hplain.
    clear Hnd. induction values as [|kv values IH]; simpl; constructor.
    + apply specialize_value_plain, Hplain. now left.
    + apply IH. intros x Hx. apply Hplain. now right.
Qed.

Lemma plain_aggregate_unchanged_witness :
  specialize TestWorld.world (construct TestWorld.world 2)
    [("name", VStr "n"); ("debug", VBool true); ("parent", VNone)]
  = Ok [("name", VStr "n"); ("debug", VBool true); ("parent", VNone)].
Proof.
  apply (plain_aggregate_unchanged TestWorld.world (construct TestWorld.world 2)).
  - repeat constructor; simpl; intuition discriminate.
  - reflexivity.
Defined.

Lemma clear_element_declares W x :
  declares_bookkeeping W x = true -> clear_element W x = Ok (clear_obj x).
Proof.
  destruct x; try discriminate. unfold declares_bookkeeping, bookkeeping. simpl.
  intros H. apply andb_true_iff in H as [H1 H].
  apply andb_true_iff in H as [H2 H]. apply andb_true_iff in H as [H3 _].
  unfold clear_element, set_attr. rewrite H1. unfold bind at 1.
  rewrite H2. unfold bind at 1. now rewrite H3.
Qed.

Lemma clear_element_ok_declares W x y :
  clear_element W x = Ok y -> declares_bookkeeping W x = true.
Proof.
  unfold clear_element. destruct x; try discriminate. simpl.
  destruct (str_in "class_path" (map f_name (model_fields W cls)));
    [simpl | discriminate].
  destruct (str_in "base_class" (map f_name (model_fields W cls)));
    [simpl | discriminate].
  destruct (str_in "kwargs" (map f_name (model_fields W cls)));
    [reflexivity | discriminate].
Qed.

(** X8. The list branch returns exactly when every member is an object
    whose class declares [class_path], [base_class] and [kwargs], and then
    it returns the members in order with those three attributes set to
    [None]. *)
Theorem list_branch_returns_iff W l l' :
  specialize_list W l = Ok l' <->
  forallb (declares_bookkeeping W) l = true /\ l' = map clear_obj l.
Proof.
  revert l'. induction l as [|x l IH]; intros l'; simpl.
  - split; [intros [= <-]; auto | intros [_ ->]; reflexivity].
  - split.
    + destruct (clear_element W x) as [y|] eqn:Ex; [simpl | discriminate].
      destruct (specialize_list W l) as [ys|] eqn:El; [simpl | discriminate].
      intros [= <-]. destruct (proj1 (IH ys) eq_refl) as [Hl ->].
      rewrite (clear_element_ok_declares _ _ _ Ex), Hl.
      apply (clear_element_ok W) in Ex as [-> _]. auto.
    + intros [H ->]. apply andb_true_iff in H as [Hx Hl].
      rewrite (clear_element_declares _ _ Hx). simpl.
      now rewrite (proj2 (IH (map clear_obj l)) (conj Hl eq_refl)).
Qed.

(** ** The first construction *)

(** X9. Constructing an element class (one that does not redeclare the
    three bookkeeping fields) on a parsed mapping with an
    identifier and no marker gives an object of that class that still
    carries the identifier and whose [kwargs] is the mapping without
    [class_path]: the element's own pass goes through the dict branch for
    [kwargs] and leaves it alone. *)
Theorem first_construction_keeps_identifier_and_payload
    W depth base m class_path o :
  derives W base BaseElementCfg = true ->
  no_shadow W base = true ->
  NoDup (Dict.keys m) ->
  plain_items W m = true ->
  Dict.get "class_path" m = Some (VStr class_path) ->
  Dict.has "base_class" m = false ->
  construct W depth base m = Ok o ->
  class_of o = Some base /\
  attr_of "class_path" o = Some (VStr class_path) /\
  attr_of "kwargs" o = Some (VDict (captured m)) /\
  forall k, Dict.get k (captured m)
            = if String.eqb k "class_path" then None else Dict.get k m.
Proof.
  intros Hel Hns Hnd Hplain Hp Hb Hc.
  destruct (first_pass_attrs _ _ _ _ _ _ Hel Hns Hnd Hplain Hp Hb Hc)
    as [fs [-> [H1 H2]]].
  repeat split; try assumption.
  intros k. rewrite captured_keys. unfold str_in. simpl.
  destruct (String.eqb k "class_path"); [reflexivity|].
  destruct (String.eqb k "base_class") eqn:E; [|reflexivity].
  apply String.eqb_eq in E. subst k. symmetry. now apply has_false_iff.
Qed.

Lemma first_construction_keeps_identifier_and_payload_witness :
  class_of (TestWorld.first_pass "base_config_test.Item2" "arg1")
    = Some TestWorld.Item1 /\
  attr_of "class_path" (TestWorld.first_pass "base_config_test.Item2" "arg1")
    = Some (VStr "base_config_test.Item2") /\
  attr_of "kwargs" (TestWorld.first_pass "base_config_test.Item2" "arg1")
    = Some (VDict (captured [("class_path", VStr "base_config_test.Item2");
                             ("arg1", VStr "arg1")])) /\
  forall k, Dict.get k (captured [("class_path", VStr "base_config_test.Item2");
                                  ("arg1", VStr "arg1")])
            = if String.eqb k "class_path" then None
              else Dict.get k [("class_path", VStr "base_config_test.Item2");
                               ("arg1", VStr "arg1")].
Proof.
  apply (first_construction_keeps_identifier_and_payload TestWorld.world 2
           TestWorld.Item1
           [("class_path", VStr "base_config_test.Item2"); ("arg1", VStr "arg1")]
           "base_config_test.Item2");
    try reflexivity.
  repeat constructor; simpl; intuition discriminate.
Defined.

(** ** How the exceptions of the pass leave the constructor *)

(** X10. Once the fields are validated, whatever the pass raises on the
    first field it cannot handle
    leaves the constructor of the aggregate: as it is when pydantic does not
    catch it (the not-a-subclass error, a failed import or lookup), as a
    [ValidationError] otherwise -- also when field errors had been recorded
    before the pass ran. *)
Theorem pass_exception_leaves_constructor
    W depth c d input values errors before k v after e :
  pre_root W c d = Ok input ->
  validate_fields W (construct W depth) (model_fields W c) input []
    = Ok (values, errors) ->
  derives W c BaseContainerCfg || derives W c BaseElementCfg = true ->
  values = (before ++ (k, v) :: after)%list ->
  Forall (fun kv => returns (specialize_value W (construct W depth) (snd kv)) = true)
         before ->
  specialize_value W (construct W depth) v = Raise e ->
  construct W (S depth) c d
  = Raise (if caught_by_pydantic e then ValidationError else e).
Proof.
  intros Hpre Hval Hpost -> Hb He. simpl. unfold validate_model.
  rewrite Hpre, Hval. simpl. unfold post_root, specialize. rewrite Hpost.
  now rewrite (specialize_loop_raises _ _ _ _ _ _ _ e Hb He).
Qed.

Lemma pass_exception_leaves_constructor_witness :
  construct TestWorld.world 3 TestWorld.ContainerX TestWorld.not_subclass_args
  = Raise (if caught_by_pydantic (NotASubclass TestWorld.ItemX TestWorld.BaseItem)
           then ValidationError
           else NotASubclass TestWorld.ItemX TestWorld.BaseItem).
Proof.
  apply (pass_exception_leaves_constructor TestWorld.world 2 TestWorld.ContainerX
           TestWorld.not_subclass_args TestWorld.not_subclass_args
           [("item", VObj TestWorld.BaseItem
                       (TestWorld.raw "base_config_test.ItemX" [("arg1", VStr "arg1")]))]
           false [] "item"
           (VObj TestWorld.BaseItem
              (TestWorld.raw "base_config_test.ItemX" [("arg1", VStr "arg1")]))
           []); try reflexivity.
  constructor.
Defined.

(** ** Constructing the resolved class *)

Lemma bookkeeping_apart W cls :
  no_shadow W cls = true ->
  NoDup (map f_name (c_fields (w_class W cls))) ->
  NoDup (Dict.keys empty_bookkeeping ++ map f_name (c_fields (w_class W cls))).
Proof.
  intros Hns Hnd. apply NoDup_app; [|exact Hnd|].
  - repeat constructor; simpl; intuition discriminate.
  - intros name Hname Hin. apply in_map_iff in Hin as [f [Hf Hin]].
    apply (no_shadow_spec _ _ _ name Hns Hin); [|exact Hf].
    simpl in Hname. destruct Hname as [<- | [<- | [<- | []]]]; reflexivity.
Qed.

Lemma validate_fields_defaults W rec own data values errs :
  Dict.get "class_path" data = None ->
  Dict.get "base_class" data = None ->
  Dict.get "kwargs" data = None ->
  validate_fields W rec own data empty_bookkeeping = Ok (values, errs) ->
  validate_fields W rec (element_fields ++ own) data [] = Ok (values, errs).
Proof.
  intros H1 H2 H3 H. simpl. unfold validate_one. simpl.
  rewrite H1, H2, H3. simpl.
  unfold empty_bookkeeping in H. now rewrite H.
Qed.

Lemma resolved_construct W depth cls kwargs os :
  derives W cls BaseElementCfg = true ->
  no_shadow W cls = true ->
  NoDup (map f_name (c_fields (w_class W cls))) ->
  Dict.has "kwargs" kwargs = false ->
  Forall2 (settled_field W depth (stripped (specialize_args cls kwargs)))
          (c_fields (w_class W cls)) os ->
  construct W (S depth) cls (specialize_args cls kwargs)
  = Ok (VObj cls (empty_bookkeeping
                    ++ combine (map f_name (c_fields (w_class W cls))) os)%list).
Proof.
  intros Hel Hns Hnd Hkw HS.
  pose proof (bookkeeping_apart _ _ Hns Hnd) as Hapart.
  destruct (settled_fields_validate _ _ _ _ _ empty_bookkeeping HS Hapart)
    as [vs [Hv HF']].
  assert (Hlen : length (map f_name (c_fields (w_class W cls))) = length vs).
  { rewrite length_map, (Forall2_length HS). symmetry. exact (Forall2_length HF'). }
  destruct (Forall2_combine_names _ _ _ _ Hlen HF') as [HF'' Hkeys].
  simpl. unfold validate_model, pre_root.
  rewrite Hel, args_to_kwargs_second. fold (stripped (specialize_args cls kwargs)).
  rewrite (model_fields_element _ _ Hel).
  rewrite (validate_fields_defaults _ _ _ _ _ _ ltac:(now rewrite get_stripped)
             ltac:(now rewrite get_stripped)
             ltac:(rewrite get_stripped; simpl; apply has_false_iff;
                   now rewrite has_specialize_args, Hkw) Hv).
  simpl. rewrite (post_root_element _ _ _ _ Hel). unfold specialize. simpl.
  fold empty_bookkeeping.
  rewrite (specialize_loop_total _ _ _ os empty_bookkeeping);
    [| now rewrite Hkeys | exact HF''].
  now rewrite Hkeys.
Qed.

(** X11. Specialisation recurses.  When the resolved class (an element
    class that does not redeclare the three bookkeeping fields, with
    distinct field names) is constructed from a payload without a key
    ["kwargs"], its own fields are validated and normalised in turn.  If
    each of them either is declared with an element class that does not
    redeclare the three fields and is given a mapping -- with unique keys,
    no element objects, a string for [class_path] and no key [base_class] --
    that the declared class accepts and whose identifier resolves to a class
    with the declared one among its bases, which accepts the captured
    payload, or else validates and passes the normaliser, then the
    construction returns an object of the resolved class with empty
    bookkeeping attributes, and each field of the first kind holds an
    instance of exactly the class its identifier resolves to. *)
Theorem resolved_class_specializes_its_fields W depth cls kwargs os :
  derives W cls BaseElementCfg = true ->
  no_shadow W cls = true ->
  NoDup (map f_name (c_fields (w_class W cls))) ->
  Dict.has "kwargs" kwargs = false ->
  Forall2 (fun f o =>
             plain_position W depth (stripped (specialize_args cls kwargs)) f o \/
             settled_field W depth (stripped (specialize_args cls kwargs)) f o)
          (c_fields (w_class W cls)) os ->
  construct W (S depth) cls (specialize_args cls kwargs)
  = Ok (VObj cls (empty_bookkeeping
                    ++ combine (map f_name (c_fields (w_class W cls))) os)%list) /\
  Forall2 (fun f o =>
             plain_position W depth (stripped (specialize_args cls kwargs)) f o ->
             holds_resolved W depth (stripped (specialize_args cls kwargs)) f o)
          (c_fields (w_class W cls)) os.
Proof.
  intros Hel Hns Hnd Hkw HF. split.
  - apply resolved_construct; try assumption.
    clear Hnd. induction HF as [|f o fields os [Hf | Hf] _ IH]; constructor;
      auto using plain_position_settled.
  - clear Hnd. induction HF; constructor; auto using plain_position_holds.
Qed.

Lemma resolved_class_specializes_its_fields_witness :
  construct TestWorld.world 3 TestWorld.Wrapper
    (specialize_args TestWorld.Wrapper
       [("inner", TestWorld.item "base_config_test.Item1" [("arg1", VStr "arg1")])])
  = Ok (VObj TestWorld.Wrapper
          (empty_bookkeeping
             ++ combine (map f_name (c_fields (w_class TestWorld.world TestWorld.Wrapper)))
                        [TestWorld.cleaned "arg1"])%list) /\
  Forall2 (fun f o =>
             plain_position TestWorld.world 2
               (stripped (specialize_args TestWorld.Wrapper
                  [("inner", TestWorld.item "base_config_test.Item1"
                               [("arg1", VStr "arg1")])])) f o ->
             holds_resolved TestWorld.world 2
               (stripped (specialize_args TestWorld.Wrapper
                  [("inner", TestWorld.item "base_config_test.Item1"
                               [("arg1", VStr "arg1")])])) f o)
          (c_fields (w_class TestWorld.world TestWorld.Wrapper))
          [TestWorld.cleaned "arg1"].
Proof.
  apply (resolved_class_specializes_its_fields TestWorld.world 2 TestWorld.Wrapper
           [("inner", TestWorld.item "base_config_test.Item1" [("arg1", VStr "arg1")])]
           [TestWorld.cleaned "arg1"]).
  - reflexivity.
  - reflexivity.
  - repeat constructor; simpl; intuition discriminate.
  - reflexivity.
  - apply Forall2_cons; [|apply Forall2_nil]. left.
    exists TestWorld.BaseItem,
      [("class_path", VStr "base_config_test.Item1"); ("arg1", VStr "arg1")],
      "base_config_test.Item1", TestWorld.Item1.
    eexists. repeat split; try reflexivity.
    repeat constructor; simpl; intuition discriminate.
Defined.

(** ** Dumping gives the payload back *)

Lemma Forall2_map_in {A B C : Type} (R : A -> B -> Prop) (Q : A -> C -> Prop)
    (g : B -> C) (l1 : list A) (l2 : list B) :
  Forall2 R l1 l2 ->
  (forall a b, In a l1 -> In b l2 -> R a b -> Q a (g b)) ->
  Forall2 Q l1 (map g l2).
Proof.
  induction 1 as [|a b l1 l2 Hab _ IH]; intros H; simpl; constructor.
  - apply H; simpl; auto.
  - apply IH. intros a' b' Ha Hb. apply H; simpl; auto.
Qed.

Lemma dump_string_fields c (fs : dict) :
  Forall (fun kv => exists s, snd kv = VStr s) fs ->
  dump (VObj c (empty_bookkeeping ++ fs)) = VDict fs.
Proof.
  intros H. simpl. f_equal.
  induction H as [|[k x] fs [s Hx] _ IH]; [reflexivity|].
  simpl in Hx. subst x. now rewrite IH.
Qed.

(** X12. For a resolved class whose fields are strings (and none of them
    one of the three bookkeeping fields), a payload that
    gives each of them a string (in the order of declaration) round-trips:
    the second construction returns an object of that class, and dumping it
    with the [None] values left out gives the payload back, without any of
    the three bookkeeping keys. *)
Theorem dump_gives_back_payload W depth cls kwargs :
  derives W cls BaseElementCfg = true ->
  no_shadow W cls = true ->
  NoDup (map f_name (c_fields (w_class W cls))) ->
  Forall2 (fun f kv => f_name f = fst kv /\ f_type f = TStr /\
                       exists s, snd kv = VStr s)
          (c_fields (w_class W cls)) kwargs ->
  exists o,
    construct W (S depth) cls (specialize_args cls kwargs) = Ok o /\
    class_of o = Some cls /\
    dump o = VDict kwargs.
Proof.
  intros Hel Hns Hnd HF.
  assert (Hnames : map f_name (c_fields (w_class W cls)) = Dict.keys kwargs).
  { clear Hnd. induction HF as [|f kv fs kw [Hn _] _ IH]; simpl; [reflexivity|].
    now rewrite Hn, IH. }
  assert (Hkeys : NoDup (Dict.keys kwargs)) by now rewrite <- Hnames.
  assert (Hout : forall name, str_in name bookkeeping = true ->
                              Dict.get name kwargs = None).
  { intros name Hname. apply get_none_iff. rewrite <- Hnames. intros Hin.
    apply in_map_iff in Hin as [f [Hf Hin]].
    exact (no_shadow_spec _ _ _ name Hns Hin Hname Hf). }
  assert (HS : Forall2 (settled_field W depth (stripped (specialize_args cls kwargs)))
                       (c_fields (w_class W cls)) (map snd kwargs)).
  { apply (Forall2_map_in _ _ _ _ _ HF).
    intros f [k x] Hf Hkv [Hn [Ht [s Hx]]]. simpl in *. subst k x.
    exists (VStr s). split; [|reflexivity].
    intros values. unfold validate_one.
    assert (Hg : Dict.get (f_name f) (stripped (specialize_args cls kwargs))
                 = Some (VStr s)).
    { rewrite get_stripped, (get_specialize_args _ _ _ Hkeys).
      rewrite (in_get_some _ _ _ Hkeys Hkv).
      assert (Hne : str_in (f_name f) bookkeeping = false).
      { unfold no_shadow in Hns. rewrite forallb_forall in Hns.
        apply negb_true_iff. now apply Hns. }
      unfold str_in, bookkeeping in *. simpl in *.
      destruct (String.eqb (f_name f) "class_path"); [discriminate|].
      now destruct (String.eqb (f_name f) "base_class"). }
    now rewrite Hg, Ht. }
  eexists. split; [|split].
  - apply (resolved_construct W depth cls kwargs (map snd kwargs));
      try assumption.
    apply has_false_iff. now apply Hout.
  - reflexivity.
  - rewrite Hnames, combine_keys_values. apply dump_string_fields.
    clear - HF. induction HF as [|f kv fs kw [_ [_ Hs]] _ IH]; constructor; auto.
Qed.

Lemma dump_gives_back_payload_witness :
  exists o,
    construct TestWorld.world 1 TestWorld.Item2
      (specialize_args TestWorld.Item2 [("arg1", VStr "arg1"); ("arg2", VStr "arg2")])
    = Ok o /\
    class_of o = Some TestWorld.Item2 /\
    dump o = VDict [("arg1", VStr "arg1"); ("arg2", VStr "arg2")].
Proof.
  apply (dump_gives_back_payload TestWorld.world 0 TestWorld.Item2
           [("arg1", VStr "arg1"); ("arg2", VStr "arg2")]).
  - reflexivity.
  - reflexivity.
  - repeat constructor; simpl; intuition discriminate.
  - apply Forall2_cons; [|apply Forall2_cons; [|apply Forall2_nil]];
      (split; [reflexivity | split; [reflexivity | eexists; reflexivity]]).
Defined.

(** ** A document that has a key "kwargs" *)

(** X13. [kwargs] is a declared field like any other, and the payload is
    captured before the key is overwritten: when the payload has a key
    ["kwargs"] bound to a mapping, the second construction (by a class that
    does not redeclare the three fields) validates that
    mapping into the attribute, so the specialised object does not have an
    empty [kwargs] -- it holds the mapping the document gave (here: a parsed
    one, with no element objects in it). *)
Theorem document_kwargs_survive W depth cls kwargs inner o :
  derives W cls BaseElementCfg = true ->
  no_shadow W cls = true ->
  NoDup (Dict.keys kwargs) ->
  Dict.get "kwargs" kwargs = Some (VDict inner) ->
  NoDup (Dict.keys inner) ->
  plain_items W inner = true ->
  construct W depth cls (specialize_args cls kwargs) = Ok o ->
  attr_of "class_path" o = Some VNone /\
  attr_of "base_class" o = Some VNone /\
  attr_of "kwargs" o = Some (VDict inner).
Proof.
  intros Hel Hns Hnd Hkw Hin Hplain Hc.
  destruct (second_pass_attrs _ _ _ _ _ Hel Hns Hc) as [H1 [H2 _]].
  split; [exact H1|]. split; [exact H2|].
  apply construct_ok_inv in Hc
    as [depth' [input [values [out [-> [Hpre [Hval [Hpost ->]]]]]]]].
  unfold pre_root in Hpre. rewrite Hel, args_to_kwargs_second in Hpre.
  injection Hpre as <-. fold (stripped (specialize_args cls kwargs)) in Hval.
  rewrite (post_root_element _ _ _ _ Hel) in Hpost.
  assert (Hvnd : NoDup (Dict.keys values)).
  { eapply validate_fields_NoDup; [exact Hval | constructor]. }
  rewrite (model_fields_element _ _ Hel) in Hval.
  assert (Hdata : Dict.get "kwargs" (stripped (specialize_args cls kwargs))
                  = Some (VDict inner)).
  { now rewrite get_stripped, (get_specialize_args _ _ _ Hnd), Hkw. }
  assert (Hg : Dict.get "kwargs" values = Some (VDict inner)).
  { apply (validate_fields_get _ _ _ _ _ _ _ _ _ Hval).
    - intros f values0 Hf Hname. apply in_app_or in Hf as [Hf | Hf].
      + simpl in Hf. destruct Hf as [<- | [<- | [<- | []]]]; try discriminate.
        unfold validate_one. simpl f_name. simpl f_type.
        rewrite Hdata. now rewrite (validate_payload _ _ _ Hin).
      + exfalso. exact (no_shadow_spec _ _ _ "kwargs" Hns Hf eq_refl Hname).
    - right. exists (Field "kwargs" (TOptional (TDict TAny)) (Some VNone)).
      split; [|reflexivity]. apply in_or_app. left. simpl. auto. }
  destruct (specialize_get _ _ _ _ Hvnd Hpost) as [_ Hget].
  destruct (Hget _ _ Hg) as [v' [Hv' Hout]].
  rewrite (dict_branch _ _ _ Hin) in Hv'. injection Hv' as <-.
  simpl. rewrite Hout. do 2 f_equal. now apply plain_items_unchanged.
Qed.

Lemma document_kwargs_survive_witness :
  attr_of "class_path"
    (VObj TestWorld.Item1 [ ("class_path", VNone); ("base_class", VNone);
                            ("kwargs", VDict [("a", VStr "b")]);
                            ("arg1", VStr "arg1") ]) = Some VNone /\
  attr_of "base_class"
    (VObj TestWorld.Item1 [ ("class_path", VNone); ("base_class", VNone);
                            ("kwargs", VDict [("a", VStr "b")]);
                            ("arg1", VStr "arg1") ]) = Some VNone /\
  attr_of "kwargs"
    (VObj TestWorld.Item1 [ ("class_path", VNone); ("base_class", VNone);
                            ("kwargs", VDict [("a", VStr "b")]);
                            ("arg1", VStr "arg1") ]) = Some (VDict [("a", VStr "b")]).
Proof.
  apply (document_kwargs_survive TestWorld.world 1 TestWorld.Item1
           [("arg1", VStr "arg1"); ("kwargs", VDict [("a", VStr "b")])]
           [("a", VStr "b")]); try reflexivity.
  - repeat constructor; simpl; intuition discriminate.
  - repeat constructor; simpl; intuition discriminate.
Defined.
